(** * go-socks5: a shallow embedding of the server lifecycle, the
      per-connection engine, the credential stores and the connection
      error type, with the properties the specification states of them.

    Source embedded here:
    - credentials.go: CredentialStore, CredentialStoreFunc, StaticCredentials
    - the file declaring the error type: Error, wrapError, Error.Error,
      Error.Unwrap
    - socks5.go: Config, Server, New, ListenAndServe, Serve, Shutdown,
      ServeConn

    Go values are modelled as follows.  A [uint8] is a [Byte.byte]; a Go
    [string] is a [string]; a [map[string]string] is a [gmap string string];
    a nil-able interface or pointer is an [option]; an [error] is a value of
    the inductive type [error] below, a nil error being [None]. *)

From Stdlib.Strings Require Import Byte Ascii String.
From stdpp Require Import gmap strings list pretty.

Open Scope string_scope.

(** ** uint8 *)

#[global] Instance byte_eq_dec : EqDecision byte := Byte.byte_eq_dec.

#[global] Instance byte_countable : Countable byte :=
  inj_countable Byte.to_N Byte.of_N Byte.of_to_N.

(** ** The part of package [fmt] the source uses

    [fmt.Sprintf] and [fmt.Errorf] are called with the verbs [%s], [%v] and
    [%w] only.  An operand is a nil interface, a value rendered through its
    [String()] or [Error()] method (carried here as that text), or a byte
    slice. *)
Module fmt.

Inductive value : Type :=
| Nil
| Text (s : string)
| Bytes (p : list byte).

Definition byte_char (b : byte) : string := String (Ascii.ascii_of_byte b) "".

Definition decimal (b : byte) : string := pretty (Byte.to_N b).

(** [%s] *)
Definition verb_s (v : value) : string :=
  match v with
  | Nil => "%!s(<nil>)"
  | Text s => s
  | Bytes p => String.concat "" (map byte_char p)
  end.

(** [%v]; a byte slice prints as [[5 1 0]]. *)
Definition verb_v (v : value) : string :=
  match v with
  | Nil => "<nil>"
  | Text s => s
  | Bytes p => "[" ++ String.concat " " (map decimal p) ++ "]"
  end.

Definition is_verb (wrapping : bool) (c : Ascii.ascii) : bool :=
  Ascii.eqb c "s"%char || Ascii.eqb c "v"%char || (wrapping && Ascii.eqb c "w"%char).

Definition render (c : Ascii.ascii) (v : value) : string :=
  if Ascii.eqb c "s"%char then verb_s v else verb_v v.

(** The formatting loop: literal text is copied, [%%] is a percent sign,
    a verb consumes the next operand ([%w] is a verb for [Errorf] only and
    prints like [%v]), a verb without operand prints [%!c(MISSING)].  Any
    other character after [%] is outside the subset the package uses and
    is marked [%!c(BADVERB)]; operands left over are not reported. *)
Fixpoint format (wrapping : bool) (f : string) (args : list value) : string :=
  match f with
  | "" => ""
  | String "%"%char "" => "%!(NOVERB)"
  | String "%"%char (String c rest) =>
      if Ascii.eqb c "%"%char then "%" ++ format wrapping rest args
      else if is_verb wrapping c then
        match args with
        | a :: args' => render c a ++ format wrapping rest args'
        | [] => "%!" ++ String c "(MISSING)" ++ format wrapping rest []
        end
      else "%!" ++ String c "(BADVERB)" ++ format wrapping rest args
  | String c rest => String c (format wrapping rest args)
  end.

Definition Sprintf (f : string) (args : list value) : string :=
  format false f args.

End fmt.

(** ** Addresses, requests and errors *)

(** [net.Addr]: the dynamic type [*net.TCPAddr] is told apart because
    [ServeConn] asserts it; [text] is what [String()] returns. *)
Inductive Addr : Type :=
| TCPAddr (IP : list byte) (Port : Z) (text : string)
| OtherAddr (network : string) (text : string).

Definition Addr_String (a : Addr) : string :=
  match a with
  | TCPAddr _ _ t => t
  | OtherAddr _ t => t
  end.

(** What a [net.Conn] answers for its two addresses.  Both are interface
    values and may be nil. *)
Record net_Conn : Type := mkConn {
  RemoteAddr : option Addr;
  LocalAddr : option Addr
}.

(** Modelled from the spec: the structs [AddrSpec], [AuthContext] and
    [Request] are declared in request.go and auth.go, which are not part of
    the sources at hand; the fields are those of the data model (section 3)
    that [ServeConn] reads or writes. *)
Record AddrSpec : Type := mkAddrSpec {
  FQDN : string;
  IP : list byte;
  Port : Z
}.

Record AuthContext : Type := mkAuthContext {
  Method : byte;
  Payload : gmap string string
}.

Record Request : Type := mkRequest {
  Command : byte;
  ReqAuthContext : option AuthContext;
  ReqRemoteAddr : option AddrSpec;
  DestAddr : AddrSpec
}.

(** Go [error] values.  [errVar] is a package-level error variable, whose
    identity is its name; [errString] is what [fmt.Errorf] allocates for a
    format without [%w], [errWrap] what it allocates with one [%w];
    [errConn] is a [*Error] of this package. *)
Inductive error : Type :=
| errVar (name : string) (msg : string)
| errString (msg : string)
| errWrap (msg : string) (cause : error)
| errConn (e : Error)
with Error : Type :=
| mkError (Err : error) (Conn : net_Conn) (Req : option Request).

Definition Err (e : Error) : error := let 'mkError x _ _ := e in x.
Definition Conn (e : Error) : net_Conn := let 'mkError _ c _ := e in c.
Definition Req (e : Error) : option Request := let 'mkError _ _ r := e in r.

Definition operand_of_addr (a : option Addr) : fmt.value :=
  match a with
  | Some a => fmt.Text (Addr_String a)
  | None => fmt.Nil
  end.

(** [func (e *Error) Error() string], together with the [Error()] method
    of the other error values. *)
Fixpoint error_Error (err : error) : string :=
  match err with
  | errVar _ msg => msg
  | errString msg => msg
  | errWrap msg _ => msg
  | errConn e => Error_Error e
  end
with Error_Error (e : Error) : string :=
  match e with
  | mkError err conn _ =>
      fmt.Sprintf "%s -> %s: %s"
        [operand_of_addr (RemoteAddr conn);
         operand_of_addr (LocalAddr conn);
         fmt.Text (error_Error err)]
  end.

(** [func (e *Error) Unwrap() error] *)
Definition Error_Unwrap (e : Error) : error := Err e.

(** [func wrapError(err error, conn net.Conn, req *Request) *Error] *)
Definition wrapError (err : error) (conn : net_Conn) (req : option Request) : Error :=
  mkError err conn req.

(** [fmt.Errorf]: the message is the formatted text; with a [%w] operand the
    result wraps that operand. *)
Definition Errorf (f : string) (args : list fmt.value) (wrapped : option error) : error :=
  match wrapped with
  | Some cause => errWrap (fmt.format true f args) cause
  | None => errString (fmt.format false f args)
  end.

(** [a == b] on error values where one side is a package-level variable,
    as in [err == unrecognizedAddrType]: true when both are the same
    variable.  Errors allocated at run time are distinct from every
    variable; the identity of two run-time allocations is not modelled, and
    the comparison is not used for it. *)
Definition error_same (a b : error) : bool :=
  match a, b with
  | errVar n _, errVar m _ => String.eqb n m
  | _, _ => false
  end.

(** ** credentials.go *)

Inductive CredentialStore : Type :=
| StaticCredentials (s : gmap string string)
| CredentialStoreFunc (f : string -> string -> bool).

(** Go's two-valued map index [v, ok := s[k]]: the zero value and [false]
    for a missing key. *)
Definition map_index (s : gmap string string) (k : string) : string * bool :=
  match s !! k with
  | Some v => (v, true)
  | None => ("", false)
  end.

(** [func (s StaticCredentials) Valid(user, password string) bool] *)
Definition StaticCredentials_Valid (s : gmap string string) (user password : string) : bool :=
  let '(pass, ok) := map_index s user in
  if negb ok then false
  else String.eqb password pass.

(** [func (f CredentialStoreFunc) Valid(user, password string) bool] *)
Definition CredentialStoreFunc_Valid (f : string -> string -> bool) (user password : string) : bool :=
  f user password.

Definition Valid (c : CredentialStore) (user password : string) : bool :=
  match c with
  | StaticCredentials s => StaticCredentials_Valid s user password
  | CredentialStoreFunc f => CredentialStoreFunc_Valid f user password
  end.

(** ** The client connection as [ServeConn] and its helpers see it

    [bufConn] is read byte by byte in protocol order, and [conn] is written
    to.  [pending] holds what the client has sent and the server has not yet
    consumed; [read_error] is what a read returns once [pending] is used up
    (io.EOF when the client has closed); [write_error], when set, makes every
    [Write] fail; [writes] records each call of [Write], oldest first. *)
Inductive write_call : Type :=
| Wrote (p : list byte)
| WriteFailed (p : list byte) (e : error).

Record Wire : Type := mkWire {
  pending : list byte;
  read_error : error;
  write_error : option error;
  writes : list write_call
}.

(** Reading one byte through [bufConn]. *)
Definition read_byte (w : Wire) : (byte + error) * Wire :=
  match pending w with
  | b :: rest => (inl b, mkWire rest (read_error w) (write_error w) (writes w))
  | [] => (inr (read_error w), w)
  end.

(** [conn.Write(p)] *)
Definition Write (p : list byte) (w : Wire) : option error * Wire :=
  match write_error w with
  | Some e =>
      (Some e, mkWire (pending w) (read_error w) (write_error w)
                      (writes w ++ [WriteFailed p e]))
  | None =>
      (None, mkWire (pending w) (read_error w) (write_error w)
                    (writes w ++ [Wrote p]))
  end.

(** ** socks5.go: Config, Server, New *)

Definition socks5Version : byte := x05.

(** Modelled from the spec: the method codes of auth.go, 0 for no-auth and
    2 for username/password (scenarios A and B). *)
Definition NoAuth : byte := x00.
Definition UserPassAuth : byte := x02.

(** The [Authenticator] interface with its two provided implementations and
    a caller-supplied one, which answers [GetCode] with [code] and runs
    [run] on the connection. *)
Inductive Authenticator : Type :=
| NoAuthAuthenticator
| UserPassAuthenticator (Credentials : CredentialStore)
| CustomAuthenticator (code : byte)
    (run : Wire -> (option AuthContext * option error) * Wire).

Definition GetCode (a : Authenticator) : byte :=
  match a with
  | NoAuthAuthenticator => NoAuth
  | UserPassAuthenticator _ => UserPassAuth
  | CustomAuthenticator code _ => code
  end.

Inductive NameResolver : Type :=
| DNSResolver
| CustomResolver (name : string).

(** Modelled from the spec: [PermitAll()] of ruleset.go is the rule set that
    permits the three commands. *)
Inductive RuleSet : Type :=
| PermitCommand (EnableConnect EnableBind EnableAssociate : bool)
| RuleSetFunc (allow : Request -> bool).

Definition PermitAll : RuleSet := PermitCommand true true true.

(** A callback of the embedding program, known by name; its calls are
    recorded where they happen. *)
Inductive Callback : Type := callback (name : string).

Record Config : Type := mkConfig {
  AuthMethods : list Authenticator;
  AuthMethodsSort : option (list byte -> list byte);
  Credentials : option CredentialStore;
  Resolver : option NameResolver;
  Rules : option RuleSet;
  Rewriter : option (Request -> AddrSpec);
  BindIP : list byte;
  ErrorHandler : option Callback;
  BaseContext : option Callback;
  Dial : option Callback
}.

(** [chan struct{}] on which nothing is ever sent. *)
Inductive chan : Type := chan_open | chan_closed.

(** [listener] is a reference into the store of listeners; [lock] is true
    while the mutex is held. *)
Record Server : Type := mkServer {
  config : Config;
  authMethods : gmap byte Authenticator;
  shutdown : chan;
  listener : option nat;
  lock : bool
}.

(** The loop of [New] that fills the registry: a later authenticator
    replaces an earlier one with the same code. *)
Definition register (m : gmap byte Authenticator) (a : Authenticator)
  : gmap byte Authenticator :=
  <[GetCode a := a]> m.

(** [New], from a pointer to a Config to a pointer to a Server and an
    error.  The defaults are written through the pointer into the caller's
    Config, and the Server keeps that same Config, so the Config after the
    call is [config] of the result. *)
Definition New (conf : Config) : option Server * option error :=
  let conf :=
    if decide (length (AuthMethods conf) = 0) then
      match Credentials conf with
      | Some creds =>
          mkConfig [UserPassAuthenticator creds] (AuthMethodsSort conf)
            (Credentials conf) (Resolver conf) (Rules conf) (Rewriter conf)
            (BindIP conf) (ErrorHandler conf) (BaseContext conf) (Dial conf)
      | None =>
          mkConfig [NoAuthAuthenticator] (AuthMethodsSort conf)
            (Credentials conf) (Resolver conf) (Rules conf) (Rewriter conf)
            (BindIP conf) (ErrorHandler conf) (BaseContext conf) (Dial conf)
      end
    else conf in
  let conf :=
    match Resolver conf with
    | None =>
        mkConfig (AuthMethods conf) (AuthMethodsSort conf)
          (Credentials conf) (Some DNSResolver) (Rules conf) (Rewriter conf)
          (BindIP conf) (ErrorHandler conf) (BaseContext conf) (Dial conf)
    | Some _ => conf
    end in
  let conf :=
    match Rules conf with
    | None =>
        mkConfig (AuthMethods conf) (AuthMethodsSort conf)
          (Credentials conf) (Resolver conf) (Some PermitAll) (Rewriter conf)
          (BindIP conf) (ErrorHandler conf) (BaseContext conf) (Dial conf)
    | Some _ => conf
    end in
  let server := mkServer conf ∅ chan_open None false in
  let server :=
    mkServer (config server)
      (foldl register (authMethods server) (AuthMethods conf))
      (shutdown server) (listener server) (lock server) in
  (Some server, None).

(** The Config with every field unset. *)
Definition zero_Config : Config :=
  mkConfig [] None None None None None [] None None None.

(** ** socks5.go: Shutdown *)

(** A [net.Listener] in the store: how many times [Close] was called. *)
Record Listener : Type := mkListener { close_calls : nat }.

Definition Listener_Close (l : Listener) : Listener :=
  mkListener (S (close_calls l)).

(** How a call ends: it returns, it panics with a run-time error, or it
    waits for a mutex that is held. *)
Inductive outcome : Type :=
| Returned
| Panicked (msg : string)
| Blocked.

(** [func (s *Server) Shutdown()].  [close] of a closed channel is a
    run-time panic; the deferred [Unlock] runs on the way out of the panic
    as it does on return. *)
Definition Shutdown (s : Server) (ls : gmap nat Listener)
  : outcome * Server * gmap nat Listener :=
  if lock s then (Blocked, s, ls)
  else
    let unlocked sh := mkServer (config s) (authMethods s) sh (listener s) false in
    match shutdown s with
    | chan_closed => (Panicked "close of closed channel", unlocked chan_closed, ls)
    | chan_open =>
        let ls :=
          match listener s with
          | Some l => alter Listener_Close l ls
          | None => ls
          end in
        (Returned, unlocked chan_closed, ls)
    end.

(** ** socks5.go: ServeConn *)

(** Modelled from the spec: the error variable [unrecognizedAddrType] and
    the reply code [addrTypeNotSupported] are declared in request.go, which
    is not part of the sources at hand; the decoder signals an address type
    it does not know as "unrecognized address type", and reply code 8 means
    address type not supported (section 4.1). *)
Definition unrecognizedAddrType : error :=
  errVar "unrecognizedAddrType" "Unrecognized address type".

Definition addrTypeNotSupported : byte := x08.

(** A connection under [ServeConn]: the addresses it reports, its wire, and
    how many times [Close] has been called on it. *)
Record ConnState : Type := mkConnState {
  addrs : net_Conn;
  wire : Wire;
  closes : nat
}.

Definition errText (e : error) : fmt.value := fmt.Text (error_Error e).

Section ServeConn.

(** The helpers of auth.go and request.go.  They receive the connection
    as an [io.Reader], an [io.Writer] or the package's narrow [conn]
    interface, so they act on the wire only. *)
Variable authenticate :
  Server -> Wire -> (option AuthContext * option error) * Wire.
Variable NewRequest : Wire -> (Request + error) * Wire.
Variable sendReply : byte -> option AddrSpec -> Wire -> option error * Wire.
Variable handleRequest : Server -> Request -> Wire -> option error * Wire.

(** [request.RemoteAddr] is set when the peer address is a [*net.TCPAddr]. *)
Definition with_client (conn : net_Conn) (authContext : option AuthContext)
    (request : Request) : Request :=
  let request :=
    mkRequest (Command request) authContext (ReqRemoteAddr request)
      (DestAddr request) in
  match RemoteAddr conn with
  | Some (TCPAddr ip port _) =>
      mkRequest (Command request) (ReqAuthContext request)
        (Some (mkAddrSpec "" ip port)) (DestAddr request)
  | _ => request
  end.

(** The body of [ServeConn], from the first read to each [return]. *)
Definition ServeConn_body (s : Server) (conn : net_Conn) (w : Wire)
  : option Error * Wire :=
  (* Read the version byte *)
  let '(r, w) := read_byte w in
  match r with
  | inr err =>
      (Some (wrapError
               (Errorf "read version byte: %w" [errText err] (Some err))
               conn None), w)
  | inl v =>
      let version := [v] in
      (* Ensure we are compatible *)
      if negb (Byte.eqb v socks5Version) then
        (Some (wrapError
                 (Errorf "unsupported socks version: %v" [fmt.Bytes version] None)
                 conn None), w)
      else
        (* Authenticate the connection *)
        let '(authContext, err, w) := authenticate s w in
        match err with
        | Some err =>
            (Some (wrapError
                     (Errorf "authenticate: %w" [errText err] (Some err))
                     conn None), w)
        | None =>
            let '(r, w) := NewRequest w in
            match r with
            | inr err =>
                if error_same err unrecognizedAddrType then
                  let '(err2, w) := sendReply addrTypeNotSupported None w in
                  match err2 with
                  | Some err2 =>
                      (Some (wrapError
                               (Errorf "send reply: %v" [errText err2] None)
                               conn None), w)
                  | None =>
                      (Some (wrapError
                               (Errorf "read dst addr: %w" [errText err] (Some err))
                               conn None), w)
                  end
                else
                  (Some (wrapError
                           (Errorf "read dst addr: %w" [errText err] (Some err))
                           conn None), w)
            | inl request =>
                let request := with_client conn authContext request in
                (* Process the client request *)
                let '(err, w) := handleRequest s request w in
                match err with
                | Some err =>
                    (Some (wrapError
                             (Errorf "handle request: %v" [errText err] None)
                             conn (Some request)), w)
                | None => (None, w)
                end
            end
        end
  end.

(** [func (s *Server) ServeConn(conn net.Conn) error]: the body, then the
    deferred [conn.Close()]. *)
Definition ServeConn (s : Server) (c : ConnState) : option Error * ConnState :=
  let '(r, w) := ServeConn_body s (addrs c) (wire c) in
  (r, mkConnState (addrs c) w (S (closes c))).

End ServeConn.

(** ** The helpers of auth.go and request.go, from the specification

    These files are not part of the sources at hand.  The definitions below
    follow sections 4.1 to 4.3 of the specification and serve to run
    [ServeConn] on concrete byte streams; the specification does not fix
    the texts of their errors. *)
Module Helpers.

Definition byte_of_Z (z : Z) : byte :=
  default x00 (Byte.of_N (Z.to_N (z `mod` 256))).

Definition Z_of_byte (b : byte) : Z := Z.of_N (Byte.to_N b).

Definition string_of_bytes (p : list byte) : string :=
  String.concat "" (map fmt.byte_char p).

Definition bytes_of_string (s : string) : list byte :=
  map Ascii.byte_of_ascii (String.list_ascii_of_string s).

(** Reading exactly [n] bytes; a short stream gives its read error. *)
Fixpoint read_full (n : nat) (w : Wire) : (list byte + error) * Wire :=
  match n with
  | O => (inl [], w)
  | S n =>
      let '(r, w) := read_byte w in
      match r with
      | inr e => (inr e, w)
      | inl b =>
          let '(r, w) := read_full n w in
          match r with
          | inr e => (inr e, w)
          | inl bs => (inl (b :: bs), w)
          end
      end
  end.

Definition NoSupportedAuth : error :=
  errVar "NoSupportedAuth" "No supported authentication mechanism".

Definition UserAuthFailed : error :=
  errVar "UserAuthFailed" "User authentication failed".

Definition noAcceptable : byte := xff.

(** Modelled from the spec: the username/password subnegotiation of
    section 4.1, version(1)=1, ulen, uname, plen, passwd from the client,
    and version, status from the server. *)
Definition userpass (creds : CredentialStore) (w : Wire)
  : (option AuthContext * option error) * Wire :=
  let '(e, w) := Write [socks5Version; UserPassAuth] w in
  match e with
  | Some e => (None, Some e, w)
  | None =>
  let '(r, w) := read_full 2 w in
  match r with
  | inr e => (None, Some e, w)
  | inl header =>
      if negb (bool_decide (header !! 0%nat = Some x01)) then
        (None, Some (errString "Unsupported auth version"), w)
      else
        let ulen := N.to_nat (Byte.to_N (default x00 (header !! 1%nat))) in
        let '(r, w) := read_full ulen w in
        match r with
        | inr e => (None, Some e, w)
        | inl user =>
            let '(r, w) := read_byte w in
            match r with
            | inr e => (None, Some e, w)
            | inl plen =>
                let '(r, w) := read_full (N.to_nat (Byte.to_N plen)) w in
                match r with
                | inr e => (None, Some e, w)
                | inl pass =>
                    let user := string_of_bytes user in
                    let pass := string_of_bytes pass in
                    if Valid creds user pass then
                      let '(e, w) := Write [x01; x00] w in
                      match e with
                      | Some e => (None, Some e, w)
                      | None =>
                          (Some (mkAuthContext UserPassAuth
                                   {[ "Username" := user; "Password" := pass ]}),
                           None, w)
                      end
                    else
                      let '(e, w) := Write [x01; x01] w in
                      match e with
                      | Some e => (None, Some e, w)
                      | None => (None, Some UserAuthFailed, w)
                      end
                end
            end
        end
  end
  end.

Definition Authenticate (a : Authenticator) (w : Wire)
  : (option AuthContext * option error) * Wire :=
  match a with
  | NoAuthAuthenticator =>
      let '(e, w) := Write [socks5Version; NoAuth] w in
      (Some (mkAuthContext NoAuth ∅), e, w)
  | UserPassAuthenticator creds => userpass creds w
  | CustomAuthenticator _ run => run w
  end.

Fixpoint first_registered (reg : gmap byte Authenticator) (methods : list byte)
  : option Authenticator :=
  match methods with
  | [] => None
  | m :: methods =>
      match reg !! m with
      | Some a => Some a
      | None => first_registered reg methods
      end
  end.

(** Modelled from the spec: the method negotiation of section 4.2, the
    greeting method-count(1), methods, an optional reordering, the first
    offered method found in the registry, 0xFF when there is none. *)
Definition authenticate (s : Server) (w : Wire)
  : (option AuthContext * option error) * Wire :=
  let '(r, w) := read_byte w in
  match r with
  | inr e =>
      (None, Some (Errorf "Failed to get auth methods: %v" [errText e] None), w)
  | inl n =>
      let '(r, w) := read_full (N.to_nat (Byte.to_N n)) w in
      match r with
      | inr e =>
          (None, Some (Errorf "Failed to get auth methods: %v" [errText e] None), w)
      | inl methods =>
          let methods :=
            match AuthMethodsSort (config s) with
            | Some sort => sort methods
            | None => methods
            end in
          match first_registered (authMethods s) methods with
          | Some a => Authenticate a w
          | None =>
              let '(_, w) := Write [socks5Version; noAcceptable] w in
              (None, Some NoSupportedAuth, w)
          end
      end
  end.

(** Modelled from the spec: the request frame of section 4.1, version(1)=5,
    command(1), reserved(1), address-type(1) in 1 (IPv4, 4 bytes), 3
    (domain, length and name), 4 (IPv6, 16 bytes), the address, and the
    port as two bytes, high byte first. *)
Definition readAddrSpec (w : Wire) : (AddrSpec + error) * Wire :=
  let '(r, w) := read_byte w in
  match r with
  | inr e => (inr e, w)
  | inl ty =>
      let body :=
        if Byte.eqb ty x01 then Some (read_full 4 w, false)
        else if Byte.eqb ty x04 then Some (read_full 16 w, false)
        else if Byte.eqb ty x03 then
          let '(r, w) := read_byte w in
          match r with
          | inr e => Some (inr e, w, true)
          | inl len => Some (read_full (N.to_nat (Byte.to_N len)) w, true)
          end
        else None in
      match body with
      | None => (inr unrecognizedAddrType, w)
      | Some (inr e, w, _) => (inr e, w)
      | Some (inl addr, w, named) =>
          let '(r, w) := read_full 2 w in
          match r with
          | inr e => (inr e, w)
          | inl port =>
              let hi := Z_of_byte (default x00 (port !! 0%nat)) in
              let lo := Z_of_byte (default x00 (port !! 1%nat)) in
              let p := Z.lor (Z.shiftl hi 8) lo in
              (inl (if named : bool then mkAddrSpec (string_of_bytes addr) [] p
                    else mkAddrSpec "" addr p), w)
          end
      end
  end.

Definition NewRequest (w : Wire) : (Request + error) * Wire :=
  let '(r, w) := read_full 3 w in
  match r with
  | inr e =>
      (inr (Errorf "Failed to get command version: %v" [errText e] None), w)
  | inl header =>
      if negb (bool_decide (header !! 0%nat = Some socks5Version)) then
        (inr (Errorf "Unsupported command version: %v"
                [fmt.Bytes (take 1 header)] None), w)
      else
        let '(r, w) := readAddrSpec w in
        match r with
        | inr e => (inr e, w)
        | inl dest =>
            (inl (mkRequest (default x00 (header !! 1%nat)) None None dest), w)
        end
  end.

(** Modelled from the spec: the reply frame of section 4.1, version(1)=5,
    reply-code(1), reserved(1)=0, address-type(1), bound address, bound
    port(2); without an address the IPv4 zero address and port zero are
    sent (scenario C). *)
Definition sendReply (resp : byte) (addr : option AddrSpec) (w : Wire)
  : option error * Wire :=
  let fmt_addr :=
    match addr with
    | None => Some (x01, [x00; x00; x00; x00], 0%Z)
    | Some a =>
        if negb (String.eqb (FQDN a) "") then
          Some (x03, byte_of_Z (Z.of_nat (String.length (FQDN a)))
                       :: bytes_of_string (FQDN a), Port a)
        else if decide (length (IP a) = 4%nat) then Some (x01, IP a, Port a)
        else if decide (length (IP a) = 16%nat) then Some (x04, IP a, Port a)
        else None
    end in
  match fmt_addr with
  | None => (Some (errString "Failed to format address"), w)
  | Some (addrType, addrBody, addrPort) =>
      Write ([socks5Version; resp; x00; addrType] ++ addrBody
             ++ [byte_of_Z (Z.shiftr addrPort 8); byte_of_Z (Z.land addrPort 255)])
            w
  end.

(** A request handler that answers nothing and succeeds, standing for a
    handler whose work is outside the connection engine. *)
Definition handle_nothing (s : Server) (r : Request) (w : Wire)
  : option error * Wire := (None, w).

End Helpers.

(** ** socks5.go: Serve, ListenAndServe and the goroutines they start

    [Serve] runs three kinds of goroutines: the accept loop it starts first,
    its own [select] loop, and one goroutine per accepted connection.  They
    meet on the unbuffered channels [conns] and [errs] and on [s.shutdown].
    The system below has one transition for each point where a goroutine
    blocks or communicates; a [select] that finds several cases ready takes
    any one of them. *)
Module Lifecycle.

(** The accept goroutine: inside [l.Accept()], blocked on [conns <- conn],
    blocked on [errs <- err], or returned after [errs <- err]. *)
Inductive acceptor : Type :=
| Accepting
| SendingConn (c : nat)
| SendingErr (e : error)
| AcceptorDone.

Record System : Type := mkSystem {
  server : Server;
  listeners : gmap nat Listener;     (* the listener objects *)
  serve_on : nat;                    (* [l], the argument of [Serve] *)
  acc : acceptor;
  result : option (option error);    (* what [Serve] returned, once it has *)
  serving : list nat;                (* connections inside [ServeConn] *)
  handled : list error;              (* calls of [ErrorHandler], oldest first *)
  crashed : option string            (* an unrecovered panic *)
}.

Inductive event : Type :=
| AcceptReturns (r : nat + error)  (* [conn, err := l.Accept()] *)
| RecvConn                         (* [case conn := <-conns] *)
| RecvErr                          (* [case err := <-errs] *)
| RecvShutdown                     (* [case <-s.shutdown] *)
| CallShutdown                     (* some goroutine calls [s.Shutdown()] *)
| ConnReturns (c : nat) (r : option Error).  (* [s.ServeConn(conn)] returns *)

Definition set_acc (a : acceptor) (σ : System) : System :=
  mkSystem (server σ) (listeners σ) (serve_on σ) a (result σ)
    (serving σ) (handled σ) (crashed σ).

Definition set_result (r : option error) (σ : System) : System :=
  mkSystem (server σ) (listeners σ) (serve_on σ) (acc σ) (Some r)
    (serving σ) (handled σ) (crashed σ).

Definition set_serving (cs : list nat) (σ : System) : System :=
  mkSystem (server σ) (listeners σ) (serve_on σ) (acc σ) (result σ)
    cs (handled σ) (crashed σ).

Definition set_handled (es : list error) (σ : System) : System :=
  mkSystem (server σ) (listeners σ) (serve_on σ) (acc σ) (result σ)
    (serving σ) es (crashed σ).

(** A listener on which [Close] was called accepts no more. *)
Definition listener_open (σ : System) : bool :=
  match listeners σ !! serve_on σ with
  | Some l => bool_decide (close_calls l = 0)
  | None => false
  end.

Fixpoint remove_first (c : nat) (cs : list nat) : list nat :=
  match cs with
  | [] => []
  | x :: cs => if decide (x = c) then cs else x :: remove_first c cs
  end.

(** The goroutine of a connection, [Serve] lines 138 to 142: the error of
    [ServeConn] goes to [ErrorHandler] when there is an error and a
    handler, and nowhere else. *)
Definition deliver (conf : Config) (r : option Error) (log : list error)
  : list error :=
  match r, ErrorHandler conf with
  | Some err, Some _ => log ++ [errConn err]
  | _, _ => log
  end.

Definition step (ev : event) (σ : System) : option System :=
  match crashed σ with
  | Some _ => None
  | None =>
      match ev with
      | AcceptReturns r =>
          match acc σ, r with
          | Accepting, inl c =>
              if listener_open σ then Some (set_acc (SendingConn c) σ) else None
          | Accepting, inr e => Some (set_acc (SendingErr e) σ)
          | _, _ => None
          end
      | RecvConn =>
          match result σ, acc σ with
          | None, SendingConn c =>
              Some (set_serving (serving σ ++ [c]) (set_acc Accepting σ))
          | _, _ => None
          end
      | RecvErr =>
          match result σ, acc σ with
          | None, SendingErr e => Some (set_result (Some e) (set_acc AcceptorDone σ))
          | _, _ => None
          end
      | RecvShutdown =>
          match result σ, shutdown (server σ) with
          | None, chan_closed => Some (set_result None σ)
          | _, _ => None
          end
      | CallShutdown =>
          match Shutdown (server σ) (listeners σ) with
          | (Returned, s, ls) =>
              Some (mkSystem s ls (serve_on σ) (acc σ) (result σ)
                      (serving σ) (handled σ) (crashed σ))
          | (Panicked msg, s, ls) =>
              Some (mkSystem s ls (serve_on σ) (acc σ) (result σ)
                      (serving σ) (handled σ) (Some msg))
          | (Blocked, _, _) => None
          end
      | ConnReturns c r =>
          if bool_decide (c ∈ serving σ) then
            Some (set_handled (deliver (config (server σ)) r (handled σ))
                    (set_serving (remove_first c (serving σ)) σ))
          else None
      end
  end.

Fixpoint run (tr : list event) (σ : System) : option System :=
  match tr with
  | [] => Some σ
  | ev :: tr =>
      match step ev σ with
      | Some σ => run tr σ
      | None => None
      end
  end.

(** [s.Serve(l)] has just been called. *)
Definition Serve (s : Server) (ls : gmap nat Listener) (l : nat) : System :=
  mkSystem s ls l Accepting None [] [] None.

(** [s.ListenAndServe(network, addr)]: [net.Listen] fails, or gives a new
    listener, which is stored in [s.listener] under the lock and served. *)
Definition ListenAndServe (s : Server) (ls : gmap nat Listener)
    (listen : nat + error) : error + System :=
  match listen with
  | inr err => inl err
  | inl l =>
      let s := mkServer (config s) (authMethods s) (shutdown s) (Some l) (lock s) in
      inr (Serve s (<[l := mkListener 0]> ls) l)
  end.

(** The errors [Accept] returned and the errors [ServeConn] returned in a
    run, oldest first. *)
Definition accept_errors (tr : list event) : list error :=
  omap (λ ev, match ev with AcceptReturns (inr e) => Some e | _ => None end) tr.

Definition conn_errors (tr : list event) : list error :=
  omap (λ ev, match ev with ConnReturns _ (Some e) => Some (errConn e) | _ => None end) tr.

Definition is_ConnReturns (ev : event) : bool :=
  match ev with ConnReturns _ _ => true | _ => false end.

(** What the accept goroutine, [Serve] and [Shutdown] read and write: all
    of the system but the connections being served and the handler calls. *)
Definition core (σ : System)
  : Server * gmap nat Listener * nat * acceptor * option (option error) * option string :=
  (server σ, listeners σ, serve_on σ, acc σ, result σ, crashed σ).

End Lifecycle.

(** ** The part of package [errors] that inspects this package's errors

    [errors.Unwrap] calls the [Unwrap] method of an error that has one: the
    errors [fmt.Errorf] builds with [%w], and [*Error].  [errors.Is] follows
    that chain and compares each error on it with the target by [==].

    [errors_Is err target] is [errors.Is] for a target that is a
    package-level error variable, named [target]: an error on the chain
    equals it exactly when it is that variable, and an error allocated at
    run time never is.  Targets that are themselves run-time allocations,
    which [==] compares by address, are not in the domain of this
    definition. *)
Definition errors_Unwrap (err : error) : option error :=
  match err with
  | errWrap _ cause => Some cause
  | errConn e => Some (Error_Unwrap e)
  | errVar _ _ | errString _ => None
  end.

Fixpoint errors_Is (err : error) (target : string) : bool :=
  match err with
  | errVar name _ => String.eqb name target
  | errString _ => false
  | errWrap _ cause => errors_Is cause target
  | errConn (mkError cause _ _) => errors_Is cause target
  end.

(** ** The client connection in the request context

    The file that declares [WithClientConn] and [ClientConnCtx]. *)

(** A value held in an interface, as a type assertion to [net.Conn] sees
    it: the nil interface, a value whose dynamic type implements [net.Conn],
    or a value of another type. *)
Inductive dyn : Type :=
| dyn_nil
| dyn_netConn (c : net_Conn)
| dyn_other (type_name : string).

(** [v.(net.Conn)] in its two-valued form. *)
Definition assert_netConn (v : dyn) : option net_Conn :=
  match v with
  | dyn_netConn c => Some c
  | dyn_nil | dyn_other _ => None
  end.

(** Context keys: the values of the unexported type [ctxKey] of this
    package, and the keys of other packages, which are of other types and so
    never equal to them. *)
Inductive key : Type :=
| ctxKey (n : Z)
| foreignKey (name : string).

#[global] Instance key_eq_dec : EqDecision key.
Proof. solve_decision. Defined.

(** [ctxKeyConn ctxKey = iota] *)
Definition ctxKeyConn : key := ctxKey 0.

(** [context.Context]: the background context, a context carrying one more
    value, or a cancellable context, which hands value lookups to its
    parent. *)
Inductive Context : Type :=
| Background
| WithValue (parent : Context) (k : key) (val : dyn)
| WithCancel (parent : Context).

(** [ctx.Value(key)]: the value of the innermost binding of the key, nil
    when there is none. *)
Fixpoint Value (ctx : Context) (k : key) : dyn :=
  match ctx with
  | Background => dyn_nil
  | WithValue parent k' val => if decide (k' = k) then val else Value parent k
  | WithCancel parent => Value parent k
  end.

(** [func WithClientConn(ctx context.Context, conn conn) context.Context] *)
Definition WithClientConn (ctx : Context) (conn : dyn) : Context :=
  match assert_netConn conn with
  | None => ctx
  | Some netConn => WithValue ctx ctxKeyConn (dyn_netConn netConn)
  end.

(** [func ClientConnCtx(ctx context.Context) (net.Conn, bool)] *)
Definition ClientConnCtx (ctx : Context) : option net_Conn * bool :=
  let v := Value ctx ctxKeyConn in
  match v with
  | dyn_nil => (None, false)
  | dyn_netConn _ | dyn_other _ =>
      match assert_netConn v with
      | Some netConn => (Some netConn, true)
      | None => (None, false)
      end
  end.

(** ** New on the values a caller can pass

    [New] receives a pointer, and the elements of [AuthMethods] are
    interface values: the pointer may be nil and so may any element.
    [ConfigArg] is the Config with such elements, and [New_call] is [New] on
    a pointer to it, panics included.  [New] above is the same function on
    the Configs whose authenticators are all present. *)
Record ConfigArg : Type := mkConfigArg {
  arg_AuthMethods : list (option Authenticator);
  arg_AuthMethodsSort : option (list byte -> list byte);
  arg_Credentials : option CredentialStore;
  arg_Resolver : option NameResolver;
  arg_Rules : option RuleSet;
  arg_Rewriter : option (Request -> AddrSpec);
  arg_BindIP : list byte;
  arg_ErrorHandler : option Callback;
  arg_BaseContext : option Callback;
  arg_Dial : option Callback
}.

(** How a call of [New] ends: with its two results, or in a panic. *)
Inductive New_result : Type :=
| New_returned (server : option Server) (err : option error)
| New_panicked (msg : string).

(** The run-time error of a field access through a nil pointer and of a
    method call on a nil interface. *)
Definition nil_dereference : string :=
  "runtime error: invalid memory address or nil pointer dereference".

(** The loop [for _, a := range conf.AuthMethods] with its body
    [server.authMethods[a.GetCode()] = a]: [a.GetCode()] on a nil element
    panics, which ends the loop and the call. *)
Fixpoint fill_registry (m : gmap byte Authenticator)
    (methods : list (option Authenticator)) : option (gmap byte Authenticator) :=
  match methods with
  | [] => Some m
  | Some a :: methods => fill_registry (register m a) methods
  | None :: _ => None
  end.

Definition New_call (conf : option ConfigArg) : New_result :=
  match conf with
  | None => New_panicked nil_dereference
  | Some conf =>
      (* Ensure we have at least one authentication method enabled *)
      let methods :=
        if decide (length (arg_AuthMethods conf) = 0) then
          match arg_Credentials conf with
          | Some creds => [Some (UserPassAuthenticator creds)]
          | None => [Some NoAuthAuthenticator]
          end
        else arg_AuthMethods conf in
      (* Ensure we have a DNS resolver *)
      let resolver :=
        match arg_Resolver conf with
        | None => Some DNSResolver
        | Some r => Some r
        end in
      (* Ensure we have a rule set *)
      let rules :=
        match arg_Rules conf with
        | None => Some PermitAll
        | Some r => Some r
        end in
      match fill_registry ∅ methods with
      | None => New_panicked nil_dereference
      | Some registry =>
          New_returned
            (Some (mkServer
                     (mkConfig (omap id methods) (arg_AuthMethodsSort conf)
                        (arg_Credentials conf) resolver rules
                        (arg_Rewriter conf) (arg_BindIP conf)
                        (arg_ErrorHandler conf) (arg_BaseContext conf)
                        (arg_Dial conf))
                     registry chan_open None false))
            None
      end
  end.

(** A Config whose authenticators are all present, as an argument. *)
Definition arg_of_Config (conf : Config) : ConfigArg :=
  mkConfigArg (Some <$> AuthMethods conf) (AuthMethodsSort conf)
    (Credentials conf) (Resolver conf) (Rules conf) (Rewriter conf)
    (BindIP conf) (ErrorHandler conf) (BaseContext conf) (Dial conf).

(** ** Connections in a run of [Serve]

    The connections [Accept] returned and the connections whose [ServeConn]
    returned in a run, oldest first, and the connection the accept goroutine
    holds while it waits on [conns]. *)
Definition accepted_conns (tr : list Lifecycle.event) : list nat :=
  omap (λ ev, match ev with
              | Lifecycle.AcceptReturns (inl c) => Some c
              | _ => None
              end) tr.

Definition returned_conns (tr : list Lifecycle.event) : list nat :=
  omap (λ ev, match ev with
              | Lifecycle.ConnReturns c _ => Some c
              | _ => None
              end) tr.

Definition waiting_conn (a : Lifecycle.acceptor) : list nat :=
  match a with
  | Lifecycle.SendingConn c => [c]
  | _ => []
  end.

(** ** Values used in the examples *)
Module Samples.

Definition io_EOF : error := errVar "io.EOF" "EOF".

Definition loopback : list byte := [x7f; x00; x00; x01].

Definition client : net_Conn :=
  mkConn (Some (TCPAddr loopback 5000 "127.0.0.1:5000"))
         (Some (TCPAddr loopback 1080 "127.0.0.1:1080")).

(** The server [New] builds from the Config with every field unset. *)
Definition server : Server :=
  match New zero_Config with
  | (Some s, _) => s
  | (None, _) => mkServer zero_Config ∅ chan_open None false
  end.

(** A connection on which the client has sent [sent] and then closed. *)
Definition stream (sent : list byte) : ConnState :=
  mkConnState client (mkWire sent io_EOF None []) 0.

Definition users : gmap string string := {[ "alice" := "secret" ]}.

Definition accept_failure : error := errString "accept tcp: too many open files".

(** [server.ListenAndServe] has obtained listener 0 and serves on it. *)
Definition listening : Lifecycle.System :=
  match Lifecycle.ListenAndServe server ∅ (inl 0) with
  | inr σ => σ
  | inl _ => Lifecycle.Serve server ∅ 0
  end.

Definition listener_closed : error :=
  errString "accept tcp 127.0.0.1:1080: use of closed network connection".

(** [listening] after one connection was accepted and handed to its
    goroutine. *)
Definition one_client : Lifecycle.System :=
  default listening
    (Lifecycle.run [Lifecycle.AcceptReturns (inl 1); Lifecycle.RecvConn] listening).

(** A server with an error callback, and an error of [ServeConn]. *)
Definition logging_server : Server :=
  match New (mkConfig [] None None None None None [] (Some (callback "log")) None None) with
  | (Some s, _) => s
  | (None, _) => server
  end.

Definition conn_failure : Error :=
  wrapError (errString "unsupported socks version: [4]") client None.

(** A run of [Serve]: a connection is accepted and served, its [ServeConn]
    fails, and then [Accept] fails. *)
Definition busy_run : list Lifecycle.event :=
  [Lifecycle.AcceptReturns (inl 1); Lifecycle.RecvConn;
   Lifecycle.ConnReturns 1 (Some conn_failure);
   Lifecycle.AcceptReturns (inr accept_failure)].

Definition one_listener : gmap nat Listener := {[ 0 := mkListener 0 ]}.

(** Greeting offering no-auth, then a request with address type 5. *)
Definition bad_address_type : list byte :=
  [x05; x01; x00; x05; x01; x00; x05; x00; x00].




End Samples.

(** ** Further values used in the examples *)
Module Cases.

(** A request handler that fails, as a refused dial makes it fail. *)
Definition refuse (s : Server) (r : Request) (w : Wire) : option error * Wire :=
  (Some (errString "connect: connection refused"), w).

(** Greeting offering no-auth, then CONNECT to 127.0.0.1:80. *)
Definition connect_request : list byte :=
  [x05; x01; x00; x05; x01; x00; x01; x7f; x00; x00; x01; x00; x50].

(** What is left of [connect_request] after the version byte, after the
    greeting and after the request, and the request it decodes to. *)
Definition connect_after_version : Wire :=
  mkWire [x01; x00; x05; x01; x00; x01; x7f; x00; x00; x01; x00; x50]
    Samples.io_EOF None [].

Definition connect_after_greeting : Wire :=
  mkWire [x05; x01; x00; x01; x7f; x00; x00; x01; x00; x50]
    Samples.io_EOF None [Wrote [x05; x00]].

Definition connect_after_request : Wire :=
  mkWire [] Samples.io_EOF None [Wrote [x05; x00]].

Definition connect_decoded : Request :=
  mkRequest x01 None None (mkAddrSpec "" Samples.loopback 80).

(** Greeting offering username/password only, and what is left of it after
    the version byte and after the server has turned the offer down. *)
Definition userpass_only : list byte := [x05; x01; x02].

Definition userpass_after_version : Wire :=
  mkWire [x01; x02] Samples.io_EOF None [].

Definition userpass_refused : Wire :=
  mkWire [] Samples.io_EOF None [Wrote [x05; xff]].

(** A Config whose only authentication method is a nil interface value,
    as [Config{AuthMethods: []Authenticator{nil}}] builds it. *)
Definition nil_authenticator : ConfigArg :=
  mkConfigArg [None] None None None None None [] None None None.

(** A run of [Serve] called on a listener of the caller: a connection is
    served, [Shutdown] is called, and [Accept] returns one more connection. *)
Definition accept_after_shutdown : list Lifecycle.event :=
  [Lifecycle.AcceptReturns (inl 1); Lifecycle.RecvConn; Lifecycle.CallShutdown;
   Lifecycle.AcceptReturns (inl 2)].

End Cases.

(** * Properties *)

(** ** fmt *)

Example Sprintf_bytes :
  fmt.format false "unsupported socks version: %v" [fmt.Bytes [x04]]
  = "unsupported socks version: [4]".
Proof. reflexivity. Qed.

Lemma string_app_nil_r (s : string) : s ++ "" = s.
Proof.
  induction s as [|c s IH]; [done|].
  change (String c (s ++ "") = String c s). by rewrite IH.
Qed.

(** ** credentials.go *)

(** C7.  For a StaticCredentials map [s], a user [u] and a password [p],
    [s.Valid(u, p)] is true exactly when [u] is a key of [s] and the
    password stored under it, [s[u]], is [p]. *)
Theorem StaticCredentials_Valid_iff (s : gmap string string) (u p : string) :
  Valid (StaticCredentials s) u p = true ↔ u ∈ dom s ∧ (map_index s u).1 = p.
Proof.
  rewrite elem_of_dom. unfold Valid, StaticCredentials_Valid, map_index.
  destruct (s !! u) as [pass|] eqn:Hu; simpl.
  - rewrite String.eqb_eq. split.
    + intros ->. split; [by eexists | done].
    + by intros [_ ->].
  - split; [done | intros [[? [=]] _]].
Qed.

Lemma StaticCredentials_Valid_lookup (s : gmap string string) (u p : string) :
  Valid (StaticCredentials s) u p = true ↔ s !! u = Some p.
Proof.
  unfold Valid, StaticCredentials_Valid, map_index.
  destruct (s !! u) as [pass|]; simpl; [|done].
  rewrite String.eqb_eq. split; [by intros -> | by intros [= ->]].
Qed.

Example Valid_alice :
  Valid (StaticCredentials Samples.users) "alice" "secret" = true
  ∧ Valid (StaticCredentials Samples.users) "alice" "wrong" = false
  ∧ Valid (StaticCredentials Samples.users) "bob" "" = false.
Proof. by vm_compute. Qed.

(** ** The error type *)

(** C9.  A connection error wrapping the cause [err] on a connection with
    remote address [ra] and local address [la] renders as the remote
    address, " -> ", the local address, ": " and the message of [err]; and
    [Unwrap] gives back [err]. *)
Theorem Error_rendering (err : error) (ra la : Addr) (req : option Request) :
  let e := wrapError err (mkConn (Some ra) (Some la)) req in
  Error_Error e
    = Addr_String ra ++ " -> " ++ Addr_String la ++ ": " ++ error_Error err
  ∧ Error_Unwrap e = err.
Proof.
  split; [|done].
  transitivity (Addr_String ra ++ " -> " ++ Addr_String la ++ ": "
                ++ error_Error err ++ ""); [reflexivity|].
  by rewrite string_app_nil_r.
Qed.

(** A connection that does not know its remote address: the nil operand
    is printed the way [fmt] prints nil under [%s]. *)
Example Error_rendering_nil_remote :
  Error_Error
    (wrapError (errString "EOF")
       (mkConn None (Some (OtherAddr "pipe" "pipe"))) None)
  = "%!s(<nil>) -> pipe: EOF".
Proof. reflexivity. Qed.

(** ** New *)

Lemma foldl_register_lookup (l : list Authenticator)
    (m : gmap byte Authenticator) (code : byte) :
  foldl register m l !! code
  = match last (filter (λ a, GetCode a = code) l) with
    | Some a => Some a
    | None => m !! code
    end.
Proof.
  induction l as [|a l IH] using rev_ind; [done|].
  rewrite foldl_snoc, filter_app. unfold register at 1.
  destruct (decide (GetCode a = code)) as [Heq|Hne].
  - rewrite (filter_cons_True _ a []) by done.
    cbn [filter list_filter]. rewrite last_snoc.
    by rewrite Heq, lookup_insert_eq.
  - rewrite (filter_cons_False _ a []) by done.
    cbn [filter list_filter]. rewrite app_nil_r.
    by rewrite lookup_insert_ne.
Qed.

(** On a Config whose authenticators are all present, [New] returns a
    Server and a nil error. *)
Theorem New_returns_server (conf : Config) :
  ∃ server : Server, New conf = (Some server, None).
Proof. unfold New. by eexists. Qed.

(** The zero Config: no-auth alone is registered, the resolver and the
    rule set get their defaults, the channel is open, no listener is stored. *)
Example New_zero_Config :
  New zero_Config
  = (Some (mkServer
             (mkConfig [NoAuthAuthenticator] None None (Some DNSResolver)
                (Some PermitAll) None [] None None None)
             {[ NoAuth := NoAuthAuthenticator ]} chan_open None false),
     None).
Proof. reflexivity. Qed.

(** C3.  With an empty [AuthMethods], [New] configures one method:
    username/password over the configured store when [Credentials] is set,
    no-auth otherwise.  With a non-empty [AuthMethods] the list is kept, and
    the registry holds, under each code, the last authenticator of the list
    with that code. *)
Theorem New_auth_methods (conf : Config) :
  ∃ server : Server,
    New conf = (Some server, None)
    ∧ (AuthMethods conf = [] →
       match Credentials conf with
       | Some creds =>
           AuthMethods (config server) = [UserPassAuthenticator creds]
           ∧ authMethods server = {[ UserPassAuth := UserPassAuthenticator creds ]}
       | None =>
           AuthMethods (config server) = [NoAuthAuthenticator]
           ∧ authMethods server = {[ NoAuth := NoAuthAuthenticator ]}
       end)
    ∧ (AuthMethods conf ≠ [] →
       AuthMethods (config server) = AuthMethods conf
       ∧ ∀ code : byte,
           authMethods server !! code
           = last (filter (λ a, GetCode a = code) (AuthMethods conf))).
Proof.
  eexists. split; [reflexivity|]. split.
  - intros Hnil. destruct conf as [ms srt creds res rules rw ip eh bc dial].
    simpl in Hnil. subst ms.
    destruct creds as [creds|], res, rules; by cbn.
  - intros Hne. destruct conf as [ms srt creds res rules rw ip eh bc dial].
    simpl in Hne. destruct ms as [|a ms]; [done|].
    split.
    + destruct res, rules; by cbn.
    + intros code.
      assert (∀ c : Config, AuthMethods c = a :: ms →
        foldl register ∅ (AuthMethods c) !! code
        = last (filter (λ a, GetCode a = code) (a :: ms))) as Hreg.
      { intros c ->. rewrite foldl_register_lookup.
        by destruct (last _). }
      destruct res, rules; cbn [New AuthMethods length decide]; by apply Hreg.
Qed.

(** ** Shutdown *)

(** C1 (as amended).  On a server whose shutdown channel is open, a call of
    [Shutdown] returns, having closed the channel and called [Close] on the
    listener when one is stored; a further call on that server does not
    return: closing the closed channel panics, with the lock released and
    the listener untouched. *)
Theorem Shutdown_once_then_panics (s : Server) (ls : gmap nat Listener) :
  lock s = false →
  shutdown s = chan_open →
  ∃ (s1 : Server) (ls1 : gmap nat Listener),
    Shutdown s ls = (Returned, s1, ls1)
    ∧ shutdown s1 = chan_closed
    ∧ ls1 = match listener s with
            | Some l => alter Listener_Close l ls
            | None => ls
            end
    ∧ Shutdown s1 ls1 = (Panicked "close of closed channel", s1, ls1).
Proof.
  intros Hlock Hopen. unfold Shutdown. rewrite Hlock, Hopen.
  do 2 eexists. split; [reflexivity|]. by cbn.
Qed.

Lemma Shutdown_once_then_panics_witness :
  lock Samples.server = false
  ∧ shutdown Samples.server = chan_open
  ∧ ∃ (s1 : Server) (ls1 : gmap nat Listener),
      Shutdown Samples.server ∅ = (Returned, s1, ls1)
      ∧ shutdown s1 = chan_closed
      ∧ ls1 = match listener Samples.server with
              | Some l => alter Listener_Close l ∅
              | None => ∅
              end
      ∧ Shutdown s1 ls1 = (Panicked "close of closed channel", s1, ls1).
Proof.
  split; [reflexivity|]. split; [reflexivity|].
  apply (Shutdown_once_then_panics Samples.server ∅); reflexivity.
Defined.

(** C1 as stated fails: on the server of [ListenAndServe], the first call of
    [Shutdown] returns and the second one panics. *)
Lemma Shutdown_twice_counterexample :
  ∃ (s1 : Server) (ls1 : gmap nat Listener),
    Shutdown (Lifecycle.server Samples.listening)
             (Lifecycle.listeners Samples.listening) = (Returned, s1, ls1)
    ∧ ls1 !! 0 = Some (mkListener 1)
    ∧ Shutdown s1 ls1 = (Panicked "close of closed channel", s1, ls1).
Proof. do 2 eexists. split; [reflexivity|]. split; by vm_compute. Qed.

(** ** ServeConn *)

Section ServeConn_properties.

Variable authenticate :
  Server -> Wire -> (option AuthContext * option error) * Wire.
Variable NewRequest : Wire -> (Request + error) * Wire.
Variable sendReply : byte -> option AddrSpec -> Wire -> option error * Wire.
Variable handleRequest : Server -> Request -> Wire -> option error * Wire.

Local Abbreviation ServeConn' :=
  (ServeConn authenticate NewRequest sendReply handleRequest).

(** C6.  Whatever the helpers do and wherever [ServeConn] returns, it has
    called [Close] on the client connection exactly once. *)
Theorem ServeConn_closes_once (s : Server) (c : ConnState) :
  closes (ServeConn' s c).2 = S (closes c).
Proof.
  unfold ServeConn.
  by destruct (ServeConn_body _ _ _ _ _ _ _) as [r w].
Qed.

(** C8.  When the first byte [b] of the connection is not 5, [ServeConn]
    returns an error, and the connection is left with that one byte
    consumed, nothing written and [Close] called: the outcome involves
    none of the helpers, so neither the method negotiation nor the request
    decoder has run. *)
Theorem ServeConn_bad_version (s : Server) (conn : net_Conn) (b : byte)
    (rest : list byte) (rerr : error) (werr : option error)
    (log : list write_call) (n : nat) :
  b ≠ socks5Version →
  ServeConn' s (mkConnState conn (mkWire (b :: rest) rerr werr log) n)
  = (Some (wrapError
             (errString ("unsupported socks version: [" ++ fmt.decimal b ++ "]"))
             conn None),
     mkConnState conn (mkWire rest rerr werr log) (S n)).
Proof.
  intros Hb. unfold ServeConn, ServeConn_body. cbn [addrs wire read_byte pending].
  destruct (Byte.eqb b socks5Version) eqn:Heq.
  { by apply Byte.byte_dec_bl in Heq. }
  cbn [negb closes read_error write_error writes]. do 3 f_equal.
  unfold Errorf. f_equal.
  transitivity ("unsupported socks version: " ++ ("[" ++ fmt.decimal b ++ "]") ++ "");
    [reflexivity|].
  by rewrite string_app_nil_r.
Qed.


End ServeConn_properties.

Lemma ServeConn_bad_version_witness :
  x04 ≠ socks5Version
  ∧ ServeConn Helpers.authenticate Helpers.NewRequest Helpers.sendReply
      Helpers.handle_nothing Samples.server (Samples.stream [x04; x01; x00])
    = (Some (wrapError (errString "unsupported socks version: [4]")
               Samples.client None),
       mkConnState Samples.client (mkWire [x01; x00] Samples.io_EOF None []) 1).
Proof.
  split; [done|].
  apply (ServeConn_bad_version Helpers.authenticate Helpers.NewRequest
           Helpers.sendReply Helpers.handle_nothing Samples.server
           Samples.client x04 [x01; x00] Samples.io_EOF None [] 0).
  done.
Defined.


(** One [Close] in each phase: the version byte cannot be read, the
    version is wrong, no offered method is registered, the request does not
    decode, the handler fails, the handler succeeds. *)
Example one_Close_in_each_phase :
  let serve sent handle :=
    let r := ServeConn Helpers.authenticate Helpers.NewRequest Helpers.sendReply
               handle Samples.server (Samples.stream sent) in
    (Error_Error <$> r.1, closes r.2) in
  let refuse : Server → Request → Wire → option error * Wire :=
    λ _ _ w, (Some (errString "connect: connection refused"), w) in
  let connect : list byte :=
    [x05; x01; x00; x05; x01; x00; x01; x7f; x00; x00; x01; x00; x50] in
  serve [] Helpers.handle_nothing
    = (Some "127.0.0.1:5000 -> 127.0.0.1:1080: read version byte: EOF", 1)
  ∧ serve [x04] Helpers.handle_nothing
    = (Some "127.0.0.1:5000 -> 127.0.0.1:1080: unsupported socks version: [4]", 1)
  ∧ serve [x05; x01; x02] Helpers.handle_nothing
    = (Some "127.0.0.1:5000 -> 127.0.0.1:1080: authenticate: No supported authentication mechanism", 1)
  ∧ serve Samples.bad_address_type Helpers.handle_nothing
    = (Some "127.0.0.1:5000 -> 127.0.0.1:1080: read dst addr: Unrecognized address type", 1)
  ∧ serve connect refuse
    = (Some "127.0.0.1:5000 -> 127.0.0.1:1080: handle request: connect: connection refused", 1)
  ∧ serve connect Helpers.handle_nothing = (None, 1).
Proof. repeat split; reflexivity. Qed.

(** The reply [sendReply] writes for a nil address is the ten bytes
    [05 code 00 01 00 00 00 00 00 00], attempted in one call of [Write]. *)
Lemma sendReply_nil (resp : byte) (w : Wire) :
  Helpers.sendReply resp None w
  = Write [x05; resp; x00; x01; x00; x00; x00; x00; x00; x00] w.
Proof. reflexivity. Qed.

(** Scenario D: after the no-auth greeting the client sends a request with
    address type 5; the server answers the greeting, writes the reply with
    code 8, closes and returns the error. *)
Example scenario_D :
  ServeConn Helpers.authenticate Helpers.NewRequest Helpers.sendReply
    Helpers.handle_nothing Samples.server (Samples.stream Samples.bad_address_type)
  = (Some (wrapError
             (errWrap "read dst addr: Unrecognized address type"
                unrecognizedAddrType)
             Samples.client None),
     mkConnState Samples.client
       (mkWire [x00; x00] Samples.io_EOF None
          [Wrote [x05; x00];
           Wrote [x05; x08; x00; x01; x00; x00; x00; x00; x00; x00]])
       1).
Proof. reflexivity. Qed.

(** A request cut short after two bytes is a decode failure of the other
    kind: the error is returned and only the greeting was answered. *)
Example truncated_request :
  ServeConn Helpers.authenticate Helpers.NewRequest Helpers.sendReply
    Helpers.handle_nothing Samples.server
    (Samples.stream [x05; x01; x00; x05; x01])
  = (Some (wrapError
             (errWrap "read dst addr: Failed to get command version: EOF"
                (errString "Failed to get command version: EOF"))
             Samples.client None),
     mkConnState Samples.client
       (mkWire [] Samples.io_EOF None [Wrote [x05; x00]]) 1).
Proof. reflexivity. Qed.

(** A client that is gone when the reply is due: the write of the reply is
    attempted and fails, and the error returned is that of the reply. *)
Example scenario_D_write_fails :
  (ServeConn (λ _ w, (None, None, w)) Helpers.NewRequest Helpers.sendReply
     Helpers.handle_nothing Samples.server
     (mkConnState Samples.client
        (mkWire [x05; x05; x01; x00; x09] Samples.io_EOF
           (Some (errString "broken pipe")) []) 0))
  = (Some (wrapError (errString "send reply: broken pipe") Samples.client None),
     mkConnState Samples.client
       (mkWire [] Samples.io_EOF (Some (errString "broken pipe"))
          [WriteFailed [x05; x08; x00; x01; x00; x00; x00; x00; x00; x00]
             (errString "broken pipe")]) 1).
Proof. reflexivity. Qed.

(** ** Serve and Shutdown *)

Import Lifecycle.

Lemma run_app (tr1 tr2 : list event) (σ : System) :
  run (tr1 ++ tr2) σ = run tr1 σ ≫= run tr2.
Proof.
  revert σ. induction tr1 as [|ev tr1 IH]; intros σ; [done|].
  cbn. destruct (step ev σ); [apply IH | done].
Qed.

Lemma run_snoc (tr : list event) (ev : event) (σ : System) :
  run (tr ++ [ev]) σ = run tr σ ≫= step ev.
Proof.
  rewrite run_app. destruct (run tr σ) as [σ'|]; [|done].
  cbn. by destruct (step ev σ').
Qed.

(** A property kept by every transition holds along every run. *)
Lemma run_invariant (P : System → Prop) (tr : list event) (σ σ' : System) :
  (∀ ev τ τ', P τ → step ev τ = Some τ' → P τ') →
  P σ → run tr σ = Some σ' → P σ'.
Proof.
  intros Hpres. revert σ. induction tr as [|ev tr IH]; intros σ HP Hrun.
  { cbn in Hrun. by simplify_eq. }
  cbn in Hrun. destruct (step ev σ) as [σ1|] eqn:Hstep; [|done].
  apply (IH σ1); [by eapply Hpres | done].
Qed.

Lemma step_config (ev : event) (σ σ' : System) :
  step ev σ = Some σ' → config (server σ') = config (server σ).
Proof.
  intros H. unfold step in H.
  destruct (crashed σ); [done|]. destruct ev; repeat case_match; simplify_eq; try done.
  all: unfold Shutdown in *; repeat case_match; by simplify_eq.
Qed.

Lemma run_config (s : Server) (ls : gmap nat Listener) (l : nat)
    (tr : list event) (σ : System) :
  run tr (Serve s ls l) = Some σ → config (server σ) = config s.
Proof.
  apply (run_invariant (λ τ, config (server τ) = config s)); [|done].
  intros ev τ τ' Hτ Hstep. by rewrite (step_config _ _ _ Hstep).
Qed.

Lemma accept_errors_snoc (tr : list event) (ev : event) :
  accept_errors (tr ++ [ev])
  = (accept_errors tr
     ++ match ev with AcceptReturns (inr e) => [e] | _ => [] end)%list.
Proof.
  unfold accept_errors. rewrite omap_app. f_equal.
  by destruct ev as [[c|e]| | | | |].
Qed.

Lemma conn_errors_snoc (tr : list event) (ev : event) :
  conn_errors (tr ++ [ev])
  = (conn_errors tr
     ++ match ev with ConnReturns _ (Some e) => [errConn e] | _ => [] end)%list.
Proof.
  unfold conn_errors. rewrite omap_app. f_equal.
  by destruct ev as [[c|e]| | | | |c [e|]].
Qed.

(** The error the accept goroutine holds, and the error [Serve] returned,
    are errors [Accept] returned. *)
Lemma Serve_errors_from_Accept (s : Server) (ls : gmap nat Listener) (l : nat)
    (tr : list event) (σ : System) :
  run tr (Serve s ls l) = Some σ →
  (∀ e, acc σ = SendingErr e → e ∈ accept_errors tr)
  ∧ (∀ e, result σ = Some (Some e) → e ∈ accept_errors tr).
Proof.
  revert σ. induction tr as [|ev tr IH] using rev_ind; intros σ Hrun.
  { cbn in Hrun. simplify_eq. by split. }
  rewrite run_snoc in Hrun.
  destruct (run tr (Serve s ls l)) as [σ0|] eqn:Hσ0; [|done].
  destruct (IH σ0 eq_refl) as [IHa IHr]. cbn in Hrun.
  rewrite accept_errors_snoc.
  unfold step in Hrun. destruct (crashed σ0); [done|].
  destruct ev as [[c|e']| | | | |c r]; repeat case_match; simplify_eq; cbn;
    split; intros x Hx; simplify_eq; rewrite ?elem_of_app, ?list_elem_of_singleton;
    eauto.
Qed.

(** The calls of [ErrorHandler] are the errors [ServeConn] returned, in
    order, when a handler is configured. *)
Lemma Serve_handler_calls (s : Server) (ls : gmap nat Listener) (l : nat)
    (tr : list event) (σ : System) :
  run tr (Serve s ls l) = Some σ →
  handled σ = match ErrorHandler (config s) with
              | Some _ => conn_errors tr
              | None => []
              end.
Proof.
  revert σ. induction tr as [|ev tr IH] using rev_ind; intros σ Hrun.
  { cbn in Hrun. simplify_eq. by destruct (ErrorHandler _). }
  rewrite run_snoc in Hrun.
  destruct (run tr (Serve s ls l)) as [σ0|] eqn:Hσ0; [|done]. cbn in Hrun.
  pose proof (run_config _ _ _ _ _ Hσ0) as Hconf.
  specialize (IH σ0 eq_refl). rewrite conn_errors_snoc.
  unfold step in Hrun. destruct (crashed σ0); [done|].
  destruct ev as [[c|e']| | | | |c r].
  7: { destruct (bool_decide _); [|done]. simplify_eq. cbn.
       unfold deliver. rewrite Hconf, IH.
       destruct r, (ErrorHandler (config s)); by rewrite ?app_nil_r. }
  all: rewrite app_nil_r; repeat case_match; by simplify_eq.
Qed.

Lemma step_ConnReturns_core (c : nat) (r : option Error) (σ σ' : System) :
  step (ConnReturns c r) σ = Some σ' → core σ' = core σ.
Proof. intros H. unfold step in H. by repeat case_match; simplify_eq. Qed.

Lemma step_core (ev : event) (σ σ' τ : System) :
  is_ConnReturns ev = false →
  step ev σ = Some σ' →
  core τ = core σ →
  ∃ τ', step ev τ = Some τ' ∧ core τ' = core σ'.
Proof.
  intros Hev Hstep Hcore. destruct σ, τ. unfold core in Hcore. simplify_eq/=.
  unfold step, listener_open in *. cbn in *.
  destruct ev; try done; repeat case_match; simplify_eq; by eexists.
Qed.

(** Dropping from a run the returns of [ServeConn] leaves a run, with the
    same server, listeners, accept goroutine and result of [Serve]. *)
Lemma run_without_ConnReturns (tr : list event) (σ σ' τ : System) :
  run tr σ = Some σ' →
  core τ = core σ →
  ∃ τ', run (filter (λ ev, is_ConnReturns ev = false) tr) τ = Some τ'
        ∧ core τ' = core σ'.
Proof.
  revert σ τ. induction tr as [|ev tr IH]; intros σ τ Hrun Hcore.
  { cbn in Hrun. assert (σ = σ') as <- by congruence. by exists τ. }
  cbn in Hrun. destruct (step ev σ) as [σ1|] eqn:Hstep; [|done].
  destruct (is_ConnReturns ev) eqn:Hev.
  - rewrite filter_cons_False by (by rewrite Hev).
    destruct ev; try done. apply step_ConnReturns_core in Hstep.
    apply (IH σ1); [done | congruence].
  - rewrite filter_cons_True by done.
    destruct (step_core _ _ _ τ Hev Hstep Hcore) as (τ1 & Hτ1 & Hcore1).
    cbn. rewrite Hτ1. by apply (IH σ1).
Qed.

(** C4 (as amended).  In every run of [Serve]: while an error returned by
    [Accept] waits on [errs], [Serve] returns exactly that error when its
    select takes it, it can take no connection, and as long as the shutdown
    channel is open it can do nothing else; every non-nil error [Serve]
    returns is an error [Accept] returned; the errors [ServeConn] returned
    are handed to [ErrorHandler], in order, when one is configured, and to
    nobody otherwise; and the run without the returns of [ServeConn] gives
    [Serve] the same result. *)
Theorem Serve_error_routing (s : Server) (ls : gmap nat Listener) (l : nat)
    (tr : list event) (σ : System) :
  run tr (Serve s ls l) = Some σ →
  (∀ e, acc σ = SendingErr e → result σ = None → crashed σ = None →
     (∃ σ', step RecvErr σ = Some σ' ∧ result σ' = Some (Some e))
     ∧ step RecvConn σ = None
     ∧ (shutdown (server σ) = chan_open → step RecvShutdown σ = None))
  ∧ (∀ e, result σ = Some (Some e) → e ∈ accept_errors tr)
  ∧ handled σ = match ErrorHandler (config s) with
                | Some _ => conn_errors tr
                | None => []
                end
  ∧ (∃ τ, run (filter (λ ev, is_ConnReturns ev = false) tr) (Serve s ls l) = Some τ
          ∧ result τ = result σ).
Proof.
  intros Hrun. split; [|split; [|split]].
  - intros e Ha Hr Hc. unfold step. rewrite Hc, Hr, Ha.
    split; [by eexists|]. split; [done|]. by intros ->.
  - by apply (Serve_errors_from_Accept s ls l).
  - by apply (Serve_handler_calls s ls l).
  - destruct (run_without_ConnReturns tr _ σ (Serve s ls l) Hrun eq_refl)
      as (τ & Hτ & Hcore).
    exists τ. split; [done|]. unfold core in Hcore. by simplify_eq.
Qed.

Lemma Serve_error_routing_witness :
  ∃ σ : System,
    run Samples.busy_run (Serve Samples.logging_server Samples.one_listener 0) = Some σ
    ∧ (∀ e, acc σ = SendingErr e → result σ = None → crashed σ = None →
         (∃ σ', step RecvErr σ = Some σ' ∧ result σ' = Some (Some e))
         ∧ step RecvConn σ = None
         ∧ (shutdown (server σ) = chan_open → step RecvShutdown σ = None))
    ∧ (∀ e, result σ = Some (Some e) → e ∈ accept_errors Samples.busy_run)
    ∧ handled σ = match ErrorHandler (config Samples.logging_server) with
                  | Some _ => conn_errors Samples.busy_run
                  | None => []
                  end
    ∧ (∃ τ, run (filter (λ ev, is_ConnReturns ev = false) Samples.busy_run)
              (Serve Samples.logging_server Samples.one_listener 0) = Some τ
            ∧ result τ = result σ).
Proof.
  eexists. split; [reflexivity|].
  apply (Serve_error_routing Samples.logging_server Samples.one_listener 0
           Samples.busy_run).
  reflexivity.
Defined.

(** The run [busy_run] continued by the select of [Serve]: the handler has
    received the error of [ServeConn], and [Serve] returns the error of
    [Accept]. *)
Example busy_run_result :
  (λ σ : System, (result σ, handled σ))
    <$> run (Samples.busy_run ++ [RecvErr])
          (Serve Samples.logging_server Samples.one_listener 0)
  = Some (Some (Some Samples.accept_failure), [errConn Samples.conn_failure]).
Proof. reflexivity. Qed.

(** C4 as stated fails: [Accept] returns an error, [Shutdown] is called
    before the select of [Serve] runs, and the select takes the shutdown
    case; [Serve] has returned nil, and the error of [Accept] is still with
    the accept goroutine. *)
Lemma Serve_accept_error_counterexample :
  ∃ σ : System,
    run [AcceptReturns (inr Samples.accept_failure); CallShutdown; RecvShutdown]
      Samples.listening = Some σ
    ∧ result σ = Some None
    ∧ acc σ = SendingErr Samples.accept_failure.
Proof. eexists. split; [reflexivity|]. by split. Qed.

(** The same on the path [Shutdown] is made for: the channel is closed,
    [Serve] returns nil, the listener is closed, and the error [Accept] then
    returns is never received. *)
Example shutdown_then_accept_error :
  ∃ σ : System,
    run [CallShutdown; RecvShutdown; AcceptReturns (inr Samples.listener_closed)]
      Samples.listening = Some σ
    ∧ result σ = Some None
    ∧ acc σ = SendingErr Samples.listener_closed
    ∧ step RecvErr σ = None.
Proof. eexists. split; [reflexivity|]. by repeat split. Qed.

Lemma step_shutdown_closed (ev : event) (σ σ' : System) :
  shutdown (server σ) = chan_closed →
  step ev σ = Some σ' →
  shutdown (server σ') = chan_closed.
Proof.
  intros Hcl H. unfold step in H. destruct (crashed σ); [done|].
  destruct ev; repeat case_match; simplify_eq; try done.
  all: unfold Shutdown in *; repeat case_match; by simplify_eq.
Qed.

Lemma step_listener_closed (ev : event) (σ σ' : System) :
  listener_open σ = false →
  step ev σ = Some σ' →
  listener_open σ' = false.
Proof.
  intros Hcl H. unfold step in H. destruct (crashed σ); [done|].
  destruct ev; repeat case_match; simplify_eq; try done.
  all: unfold Shutdown in *; repeat case_match; simplify_eq; try done.
  all: unfold listener_open in *; cbn in *.
  all: rewrite lookup_alter; case_decide; simplify_eq; try done.
  all: destruct (listeners σ !! _); by cbn.
Qed.

(** What a returning call of [Shutdown] changes and what it leaves. *)
Lemma Shutdown_returns_closed (σ σ1 : System) :
  step CallShutdown σ = Some σ1 →
  crashed σ1 = None →
  shutdown (server σ1) = chan_closed
  ∧ serving σ1 = serving σ ∧ handled σ1 = handled σ
  ∧ acc σ1 = acc σ ∧ result σ1 = result σ
  ∧ (listener (server σ) = Some (serve_on σ) → listener_open σ1 = false).
Proof.
  intros H Hc. unfold step in H. destruct (crashed σ); [done|].
  unfold Shutdown in H. repeat case_match; simplify_eq; cbn in *; try done.
  all: repeat split; try done.
  all: intros; simplify_eq; unfold listener_open; cbn.
  all: rewrite lookup_alter; case_decide; try done.
  all: destruct (listeners σ !! _); by cbn.
Qed.

(** C5 (as amended).  When a call of [Shutdown] has returned: the
    connections being served, the handler calls, the accept goroutine and
    the result of [Serve] are as before, and every connection being served
    can still run to its end; and at every later point of the run, a [Serve]
    that has not returned can take the shutdown case of its select and then
    returns nil, and, when the listener is the one [ListenAndServe] stored,
    [Accept] gives no further connection. *)
Theorem Shutdown_stops_Serve (σ σ1 : System) :
  step CallShutdown σ = Some σ1 →
  crashed σ1 = None →
  (serving σ1 = serving σ ∧ handled σ1 = handled σ
   ∧ acc σ1 = acc σ ∧ result σ1 = result σ)
  ∧ (∀ c r, c ∈ serving σ → is_Some (step (ConnReturns c r) σ1))
  ∧ ∀ tr σ2, run tr σ1 = Some σ2 →
      (result σ2 = None → crashed σ2 = None →
       ∃ σ3, step RecvShutdown σ2 = Some σ3 ∧ result σ3 = Some None)
      ∧ (listener (server σ) = Some (serve_on σ) →
         ∀ c, step (AcceptReturns (inl c)) σ2 = None).
Proof.
  intros Hstep Hc.
  destruct (Shutdown_returns_closed _ _ Hstep Hc)
    as (Hclosed & Hserving & Hhandled & Hacc & Hres & Hlst).
  split; [done|]. split.
  { intros c r Hin. unfold step. rewrite Hc, Hserving.
    by rewrite bool_decide_eq_true_2. }
  intros tr σ2 Hrun. split.
  - intros Hr Hc2.
    assert (shutdown (server σ2) = chan_closed) as Hcl2.
    { apply (run_invariant (λ τ, shutdown (server τ) = chan_closed) tr σ1);
        [|done..]. intros ev τ τ'. apply step_shutdown_closed. }
    unfold step. rewrite Hc2, Hr, Hcl2. by eexists.
  - intros Hreg c.
    assert (listener_open σ2 = false) as Hl2.
    { apply (run_invariant (λ τ, listener_open τ = false) tr σ1);
        [|by apply Hlst|done]. intros ev τ τ'. apply step_listener_closed. }
    unfold step. rewrite Hl2. by repeat case_match.
Qed.

Lemma Shutdown_stops_Serve_witness :
  ∃ σ1 : System,
    step CallShutdown Samples.one_client = Some σ1
    ∧ crashed σ1 = None
    ∧ (serving σ1 = serving Samples.one_client
       ∧ handled σ1 = handled Samples.one_client
       ∧ acc σ1 = acc Samples.one_client
       ∧ result σ1 = result Samples.one_client)
    ∧ (∀ c r, c ∈ serving Samples.one_client →
              is_Some (step (ConnReturns c r) σ1))
    ∧ ∀ tr σ2, run tr σ1 = Some σ2 →
        (result σ2 = None → crashed σ2 = None →
         ∃ σ3, step RecvShutdown σ2 = Some σ3 ∧ result σ3 = Some None)
        ∧ (listener (server Samples.one_client) = Some (serve_on Samples.one_client) →
           ∀ c, step (AcceptReturns (inl c)) σ2 = None).
Proof.
  eexists. split; [reflexivity|]. split; [reflexivity|].
  apply (Shutdown_stops_Serve Samples.one_client); reflexivity.
Defined.

(** C5 as stated fails: while [Serve] hands a connection to its goroutine,
    [Shutdown] closes the channel and the listener and [Accept] fails; the
    next select finds both the error and the shutdown case ready and takes
    the error: [Serve] returns it, not nil. *)
Lemma Shutdown_Serve_counterexample :
  ∃ σ : System,
    run [AcceptReturns (inl 1); RecvConn; CallShutdown;
         AcceptReturns (inr Samples.listener_closed); RecvErr]
      Samples.listening = Some σ
    ∧ result σ = Some (Some Samples.listener_closed)
    ∧ serving σ = [1].
Proof. eexists. split; [reflexivity|]. by split. Qed.

(** * Further properties *)

(** X1.  A user that is not a key of the map is rejected with every
    password, the empty one included: the zero value a missing key reads as
    is never compared. *)
Theorem StaticCredentials_unknown_user (s : gmap string string) (u p : string) :
  s !! u = None → Valid (StaticCredentials s) u p = false.
Proof.
  intros Hu. unfold Valid, StaticCredentials_Valid, map_index. by rewrite Hu.
Qed.

(** X2.  Setting the password of one user makes exactly that password
    valid for the user, and removing a user makes every password invalid for
    it; for every other user validity is as before. *)
Theorem StaticCredentials_update (s : gmap string string) (u p u' p' : string) :
  Valid (StaticCredentials (<[u := p]> s)) u' p'
  = (if decide (u' = u) then bool_decide (p' = p)
     else Valid (StaticCredentials s) u' p')
  ∧ Valid (StaticCredentials (delete u s)) u' p'
    = (if decide (u' = u) then false else Valid (StaticCredentials s) u' p').
Proof.
  unfold Valid, StaticCredentials_Valid, map_index. split.
  - destruct (decide (u' = u)) as [->|Hne].
    + rewrite lookup_insert_eq. cbn.
      destruct (String.eqb_spec p' p); symmetry;
        [by apply bool_decide_eq_true_2 | by apply bool_decide_eq_false_2].
    + by rewrite lookup_insert_ne.
  - destruct (decide (u' = u)) as [->|Hne].
    + by rewrite lookup_delete_eq.
    + by rewrite lookup_delete_ne.
Qed.

(** X3.  A user has at most one valid password. *)
Theorem StaticCredentials_one_password (s : gmap string string) (u p p' : string) :
  Valid (StaticCredentials s) u p = true →
  Valid (StaticCredentials s) u p' = true →
  p = p'.
Proof.
  rewrite !StaticCredentials_Valid_lookup. congruence.
Qed.

(** X4.  The rendering is defined for every connection: an address the
    connection does not report is printed as [fmt] prints nil under [%s],
    and the attached request has no part in the text. *)
Theorem Error_rendering_any (err : error) (conn : net_Conn) (req : option Request) :
  let text (a : option Addr) :=
    match a with
    | Some a => Addr_String a
    | None => "%!s(<nil>)"
    end in
  Error_Error (wrapError err conn req)
  = text (RemoteAddr conn) ++ " -> " ++ text (LocalAddr conn) ++ ": "
    ++ error_Error err.
Proof.
  destruct conn as [[ra|] [la|]]; cbv zeta;
    match goal with
    | |- _ = (?r ++ _ ++ ?l ++ _ ++ ?m)%string =>
        transitivity (r ++ " -> " ++ l ++ ": " ++ m ++ "")%string;
        [reflexivity | by rewrite string_app_nil_r]
    end.
Qed.

(** X5.  Looking up the client connection in the context [WithClientConn]
    returns gives the connection that was passed when it is a [net.Conn];
    for any other value, nil included, [WithClientConn] leaves the context
    as it was. *)
Theorem ClientConnCtx_WithClientConn (ctx : Context) (conn : dyn) :
  ClientConnCtx (WithClientConn ctx conn)
  = match conn with
    | dyn_netConn c => (Some c, true)
    | dyn_nil | dyn_other _ => ClientConnCtx ctx
    end.
Proof. by destruct conn. Qed.

(** X6.  [ClientConnCtx] sees through cancellable contexts and through
    values stored under other keys; a value stored under the package's key
    decides the answer, and when it is not a [net.Conn] the answer is
    [(nil, false)] even if an outer context holds a connection. *)
Theorem ClientConnCtx_innermost (ctx : Context) (k : key) (v : dyn) :
  ClientConnCtx (WithCancel ctx) = ClientConnCtx ctx
  ∧ ClientConnCtx (WithValue ctx k v)
    = (if decide (k = ctxKeyConn) then
         match v with
         | dyn_netConn c => (Some c, true)
         | dyn_nil | dyn_other _ => (None, false)
         end
       else ClientConnCtx ctx).
Proof.
  split; [done|]. unfold ClientConnCtx. cbn [Value].
  destruct (decide (k = ctxKeyConn)); [by destruct v | done].
Qed.

(** X7.  [ClientConnCtx] reports true exactly when it returns a
    connection, and the connection it returns is the innermost value under
    the package's key. *)
Theorem ClientConnCtx_ok_iff (ctx : Context) :
  ((ClientConnCtx ctx).2 = true ↔ is_Some (ClientConnCtx ctx).1)
  ∧ ∀ c, (ClientConnCtx ctx).1 = Some c ↔ Value ctx ctxKeyConn = dyn_netConn c.
Proof.
  unfold ClientConnCtx. destruct (Value ctx ctxKeyConn) as [|c|t]; cbn.
  all: split; [split; [done | by intros [? ?]] |].
  all: intros c'; split; intros H; by simplify_eq.
Qed.

(** The text [fmt.Errorf] builds from a literal prefix and one operand. *)
Ltac format_text :=
  unfold Errorf; f_equal;
  match goal with
  | |- _ = (?p ++ ?m)%string =>
      transitivity (p ++ m ++ "")%string;
      [reflexivity | by rewrite string_app_nil_r]
  end.

Lemma Errorf_read_version (err : error) :
  Errorf "read version byte: %w" [errText err] (Some err)
  = errWrap ("read version byte: " ++ error_Error err) err.
Proof. format_text. Qed.

Lemma Errorf_authenticate (err : error) :
  Errorf "authenticate: %w" [errText err] (Some err)
  = errWrap ("authenticate: " ++ error_Error err) err.
Proof. format_text. Qed.

Lemma Errorf_handle_request (err : error) :
  Errorf "handle request: %v" [errText err] None
  = errString ("handle request: " ++ error_Error err).
Proof. format_text. Qed.

Section ServeConn_outcomes.

Variable authenticate :
  Server -> Wire -> (option AuthContext * option error) * Wire.
Variable NewRequest : Wire -> (Request + error) * Wire.
Variable sendReply : byte -> option AddrSpec -> Wire -> option error * Wire.
Variable handleRequest : Server -> Request -> Wire -> option error * Wire.

Local Abbreviation ServeConn'' :=
  (ServeConn authenticate NewRequest sendReply handleRequest).

(** X8.  [ServeConn] returns nil exactly when the version byte is 5, the
    authentication succeeds, the request decodes and the request handler
    succeeds on the request enriched with the authentication context and
    the client address; the connection is then as the handler left it. *)
Theorem ServeConn_nil_iff (s : Server) (c : ConnState) :
  (ServeConn'' s c).1 = None
  ↔ ∃ (w0 w1 w2 w3 : Wire) (ctx : option AuthContext) (req : Request),
      read_byte (wire c) = (inl socks5Version, w0)
      ∧ authenticate s w0 = (ctx, None, w1)
      ∧ NewRequest w1 = (inl req, w2)
      ∧ handleRequest s (with_client (addrs c) ctx req) w2 = (None, w3)
      ∧ wire (ServeConn'' s c).2 = w3.
Proof.
  unfold ServeConn, ServeConn_body.
  destruct (read_byte (wire c)) as [[v|err] w0] eqn:Hread; cbn; [|split; [done|]].
  2: { by intros (? & ? & ? & ? & ? & ? & [=] & _). }
  destruct (Byte.eqb v socks5Version) eqn:Hv; cbn; [|split; [done|]].
  2: { intros (? & ? & ? & ? & ? & ? & [= -> _] & _). done. }
  apply Byte.byte_dec_bl in Hv as ->.
  destruct (authenticate s w0) as [[ctx [err|]] w1] eqn:Hauth; cbn; [split; [done|]|].
  { by intros (? & ? & ? & ? & ? & ? & [= <-] & Ha & _); rewrite Hauth in Ha. }
  destruct (NewRequest w1) as [[req|err] w2] eqn:Hreq; cbn.
  - destruct (handleRequest s (with_client (addrs c) ctx req) w2)
      as [[err|] w3] eqn:Hh; cbn.
    + split; [done|].
      intros (? & ? & ? & ? & ? & ? & [= <-] & Ha & Hr & Hh' & _).
      rewrite Hauth in Ha. simplify_eq. rewrite Hreq in Hr. simplify_eq.
      rewrite Hh in Hh'. done.
    + split; [|done]. intros _. by exists w0, w1, w2, w3, ctx, req.
  - split.
    + destruct (error_same _ _); [destruct (sendReply _ _ _) as [[?|] ?]|]; done.
    + intros (? & ? & ? & ? & ? & ? & [= <-] & Ha & Hr & _).
      rewrite Hauth in Ha. simplify_eq. rewrite Hreq in Hr. done.
Qed.

(** X9.  Every error [ServeConn] returns carries the connection it was
    called with; it carries a request only when the request handler failed
    on that request, and its cause is then the text "handle request: "
    followed by the message of the handler's error. *)
Theorem ServeConn_error_context (s : Server) (c : ConnState) (e : Error) :
  (ServeConn'' s c).1 = Some e →
  Conn e = addrs c
  ∧ ∀ req, Req e = Some req →
      ∃ (w w' : Wire) (err : error),
        handleRequest s req w = (Some err, w')
        ∧ Err e = errString ("handle request: " ++ error_Error err).
Proof.
  unfold ServeConn, ServeConn_body.
  destruct (read_byte (wire c)) as [[v|err] w0]; cbn.
  2: { intros [= <-]. by split. }
  destruct (Byte.eqb v socks5Version); cbn.
  2: { intros [= <-]. by split. }
  destruct (authenticate s w0) as [[ctx [err|]] w1]; cbn.
  { intros [= <-]. by split. }
  destruct (NewRequest w1) as [[req|err] w2]; cbn.
  - destruct (handleRequest s (with_client (addrs c) ctx req) w2)
      as [[err|] w3] eqn:Hh; cbn; [|done].
    intros [= <-]. split; [done|]. intros req' [= <-].
    exists w2, w3, err. split; [done|]. cbn. apply Errorf_handle_request.
  - destruct (error_same _ _); [destruct (sendReply _ _ _) as [[?|] ?]|]; cbn;
      intros [= <-]; by split.
Qed.

(** X10.  On a connection with nothing to read, [ServeConn] returns the
    read error wrapped as "read version byte: ...", writes nothing and calls
    [Close] once; for every package-level error variable, [errors.Is] finds
    it in the result exactly when it finds it in the read error. *)
Theorem ServeConn_read_failure (s : Server) (c : ConnState) :
  pending (wire c) = [] →
  let err := read_error (wire c) in
  let e := wrapError (errWrap ("read version byte: " ++ error_Error err) err)
             (addrs c) None in
  ServeConn'' s c = (Some e, mkConnState (addrs c) (wire c) (S (closes c)))
  ∧ ∀ target : string, errors_Is (errConn e) target = errors_Is err target.
Proof.
  intros Hp. unfold ServeConn, ServeConn_body, read_byte. rewrite Hp.
  cbn -[Errorf]. split; [by rewrite Errorf_read_version|done].
Qed.

(** X11.  When the authentication fails with [err], [ServeConn] returns
    [err] wrapped as "authenticate: ...", leaves the connection as the
    authentication left it and calls [Close] once; for every package-level
    error variable, [errors.Is] finds it in the result exactly when it
    finds it in [err]; the request decoder and the handler have no part in
    the outcome. *)
Theorem ServeConn_auth_failure (s : Server) (c : ConnState) (w0 w1 : Wire)
    (ctx : option AuthContext) (err : error) :
  read_byte (wire c) = (inl socks5Version, w0) →
  authenticate s w0 = (ctx, Some err, w1) →
  let e := wrapError (errWrap ("authenticate: " ++ error_Error err) err)
             (addrs c) None in
  ServeConn'' s c = (Some e, mkConnState (addrs c) w1 (S (closes c)))
  ∧ ∀ target : string, errors_Is (errConn e) target = errors_Is err target.
Proof.
  intros Hr Ha. unfold ServeConn, ServeConn_body. rewrite Hr. cbn -[Errorf].
  rewrite Ha. split; [by rewrite Errorf_authenticate|done].
Qed.

(** X12.  When the request handler fails with [err], [ServeConn] returns
    an error that carries the request and whose cause is the text
    "handle request: " and the message of [err]: the handler's error is
    formatted with [%v], so [errors.Is] finds no package-level error
    variable in the result, not even one that [err] is or wraps. *)
Theorem ServeConn_handler_failure (s : Server) (c : ConnState)
    (w0 w1 w2 w3 : Wire) (ctx : option AuthContext) (req : Request) (err : error) :
  read_byte (wire c) = (inl socks5Version, w0) →
  authenticate s w0 = (ctx, None, w1) →
  NewRequest w1 = (inl req, w2) →
  handleRequest s (with_client (addrs c) ctx req) w2 = (Some err, w3) →
  let e := wrapError (errString ("handle request: " ++ error_Error err))
             (addrs c) (Some (with_client (addrs c) ctx req)) in
  ServeConn'' s c = (Some e, mkConnState (addrs c) w3 (S (closes c)))
  ∧ ∀ target : string, errors_Is (errConn e) target = false.
Proof.
  intros Hr Ha Hn Hh. unfold ServeConn, ServeConn_body. rewrite Hr.
  cbn -[Errorf]. rewrite Ha, Hn, Hh.
  split; [by rewrite Errorf_handle_request|done].
Qed.

End ServeConn_outcomes.

(** ** New *)

(** [New] in one equation: the method list, the two defaults, and the
    registry folded from the method list. *)
Lemma New_eq (conf : Config) :
  New conf
  = let ms := if decide (length (AuthMethods conf) = 0) then
                [match Credentials conf with
                 | Some creds => UserPassAuthenticator creds
                 | None => NoAuthAuthenticator
                 end]
              else AuthMethods conf in
    (Some (mkServer
             (mkConfig ms (AuthMethodsSort conf) (Credentials conf)
                (Some (default DNSResolver (Resolver conf)))
                (Some (default PermitAll (Rules conf)))
                (Rewriter conf) (BindIP conf) (ErrorHandler conf)
                (BaseContext conf) (Dial conf))
             (foldl register ∅ ms) chan_open None false),
     None).
Proof.
  destruct conf as [ms srt creds res rules rw ip eh bc dial].
  destruct ms as [|a ms], creds, res, rules; reflexivity.
Qed.

Lemma New_methods_nonempty (conf : Config) :
  (if decide (length (AuthMethods conf) = 0) then
     [match Credentials conf with
      | Some creds => UserPassAuthenticator creds
      | None => NoAuthAuthenticator
      end]
   else AuthMethods conf) ≠ [].
Proof. case_decide as H; [done|]. by destruct (AuthMethods conf). Qed.

(** X13.  The Config [New] leaves behind has at least one authentication
    method, a resolver (the given one, or the DNS resolver) and a rule set
    (the given one, or permit-all); its other fields are untouched. *)
Theorem New_defaults (conf : Config) :
  ∃ s : Server,
    New conf = (Some s, None)
    ∧ AuthMethods (config s) ≠ []
    ∧ Resolver (config s) = Some (default DNSResolver (Resolver conf))
    ∧ Rules (config s) = Some (default PermitAll (Rules conf))
    ∧ (AuthMethodsSort (config s), Credentials (config s), Rewriter (config s),
       BindIP (config s), ErrorHandler (config s), BaseContext (config s),
       Dial (config s))
      = (AuthMethodsSort conf, Credentials conf, Rewriter conf, BindIP conf,
         ErrorHandler conf, BaseContext conf, Dial conf).
Proof.
  eexists. split; [apply New_eq|]. cbn [config AuthMethods Resolver Rules
    AuthMethodsSort Credentials Rewriter BindIP ErrorHandler BaseContext Dial].
  split; [apply New_methods_nonempty|]. repeat split.
Qed.

(** X14.  The registry [New] builds is never empty; every entry is an
    authenticator of the method list stored under its own code, and the
    code of every authenticator of the list is registered. *)
Theorem New_registry (conf : Config) :
  ∃ s : Server,
    New conf = (Some s, None)
    ∧ (∀ code a, authMethods s !! code = Some a →
         a ∈ AuthMethods (config s) ∧ GetCode a = code)
    ∧ (∀ a, a ∈ AuthMethods (config s) → is_Some (authMethods s !! GetCode a))
    ∧ authMethods s ≠ ∅.
Proof.
  eexists. split; [apply New_eq|]. cbn [config AuthMethods authMethods].
  pose proof (New_methods_nonempty conf) as Hne.
  generalize dependent (if decide (length (AuthMethods conf) = 0) then
     [match Credentials conf with
      | Some creds => UserPassAuthenticator creds
      | None => NoAuthAuthenticator
      end]
   else AuthMethods conf).
  intros ms Hne.
  assert (∀ a, a ∈ ms → is_Some (foldl register ∅ ms !! GetCode a)) as Hall.
  { intros a Ha. rewrite foldl_register_lookup.
    destruct (last (filter _ _)) eqn:Hl; [by eexists|].
    apply last_None in Hl.
    assert (a ∈ filter (λ b, GetCode b = GetCode a) ms) as Hin
      by by apply list_elem_of_filter.
    rewrite Hl in Hin. by apply not_elem_of_nil in Hin. }
  split; [|split; [done|]].
  - intros code a. rewrite foldl_register_lookup.
    destruct (last (filter _ _)) as [b|] eqn:Hl; [|by rewrite lookup_empty].
    intros [= ->]. apply last_Some_elem_of in Hl.
    by apply list_elem_of_filter in Hl as [? ?].
  - destruct ms as [|a ms]; [done|].
    intros Hempty. destruct (Hall a) as [b Hb]; [by left|].
    by rewrite Hempty, lookup_empty in Hb.
Qed.

(** X15.  [New] on the Config a call of [New] has filled in changes
    nothing more and builds the same server. *)
Theorem New_idempotent (conf : Config) (s : Server) :
  New conf = (Some s, None) → New (config s) = (Some s, None).
Proof.
  rewrite New_eq. intros [= <-]. rewrite New_eq.
  cbn [config AuthMethods Resolver Rules AuthMethodsSort Credentials Rewriter
       BindIP ErrorHandler BaseContext Dial default].
  pose proof (New_methods_nonempty conf) as Hne.
  generalize dependent (if decide (length (AuthMethods conf) = 0) then
     [match Credentials conf with
      | Some creds => UserPassAuthenticator creds
      | None => NoAuthAuthenticator
      end]
   else AuthMethods conf).
  intros ms Hne. destruct ms as [|a ms]; [done|]. reflexivity.
Qed.

(** ** Shutdown *)

(** X16.  [Shutdown] leaves the configuration, the registry and the
    stored listener reference as they are and never touches a listener
    other than the stored one; it calls [Close] on the stored one exactly
    when it returns, not when it panics or waits for the lock. *)
Theorem Shutdown_frame (s : Server) (ls : gmap nat Listener) :
  let '(o, s', ls') := Shutdown s ls in
  (config s', authMethods s', listener s') = (config s, authMethods s, listener s)
  ∧ (∀ l, listener s ≠ Some l → ls' !! l = ls !! l)
  ∧ (∀ l, listener s = Some l →
       ls' !! l = match o with
                  | Returned => Listener_Close <$> ls !! l
                  | Panicked _ | Blocked => ls !! l
                  end).
Proof.
  unfold Shutdown. destruct (lock s); [done|].
  destruct (shutdown s); cbn; [|done].
  split; [done|]. destruct (listener s) as [l0|]; [|done].
  split; intros l Hl.
  - apply lookup_alter_ne. congruence.
  - simplify_eq. apply lookup_alter_eq.
Qed.

(** ** Serve *)

(** X17.  On a server whose shutdown channel was open when [Serve] was
    called, [Serve] returns nil only in runs in which [Shutdown] was
    called. *)
Theorem Serve_nil_only_after_Shutdown (s : Server) (ls : gmap nat Listener)
    (l : nat) (tr : list event) (σ : System) :
  run tr (Serve s ls l) = Some σ →
  shutdown s = chan_open →
  result σ = Some None →
  CallShutdown ∈ tr.
Proof.
  intros Hrun Hopen.
  enough ((shutdown (server σ) = chan_closed → CallShutdown ∈ tr)
          ∧ (result σ = Some None → CallShutdown ∈ tr)) as [_ H] by done.
  revert σ Hrun. induction tr as [|ev tr IH] using rev_ind; intros σ Hrun.
  { cbn in Hrun. simplify_eq. cbn. split; [by rewrite Hopen | done]. }
  rewrite run_snoc in Hrun.
  destruct (run tr (Serve s ls l)) as [σ0|] eqn:Hσ0; [|done].
  destruct (IH σ0 eq_refl) as [IHs IHr]. cbn in Hrun.
  setoid_rewrite elem_of_app. setoid_rewrite list_elem_of_singleton.
  unfold step in Hrun. destruct (crashed σ0); [done|].
  destruct ev as [[c|e']| | | | |c r]; repeat case_match; simplify_eq; cbn;
    split; intros; simplify_eq; eauto.
  all: unfold Shutdown in *; repeat case_match; simplify_eq; eauto.
Qed.

(** X18.  When [Serve] is called on a listener of the caller, with no
    listener stored in the server, no run closes a listener: [Shutdown]
    stops [Serve] but leaves the listener accepting. *)
Theorem Serve_direct_keeps_listeners (s : Server) (ls : gmap nat Listener)
    (l : nat) (tr : list event) (σ : System) :
  listener s = None →
  run tr (Serve s ls l) = Some σ →
  listeners σ = ls ∧ listener_open σ = listener_open (Serve s ls l).
Proof.
  intros Hnone Hrun.
  assert (listener (server σ) = None ∧ listeners σ = ls ∧ serve_on σ = l)
    as (_ & Hls & Hl).
  { apply (run_invariant
             (λ τ, listener (server τ) = None ∧ listeners τ = ls ∧ serve_on τ = l)
             tr (Serve s ls l)); [|done..].
    intros ev τ τ' (Hn & Hl & Hs) Hstep. unfold step in Hstep.
    destruct (crashed τ); [done|].
    destruct ev; repeat case_match; simplify_eq; try done.
    all: unfold Shutdown in *; rewrite Hn in *; repeat case_match; by simplify_eq. }
  split; [done|]. unfold listener_open. by rewrite Hls, Hl.
Qed.

Lemma remove_first_sublist (c : nat) (cs : list nat) :
  remove_first c cs `sublist_of` cs.
Proof.
  induction cs as [|x cs IH]; [done|]. cbn.
  case_decide; [by apply sublist_cons | by apply sublist_skip].
Qed.

Lemma remove_first_perm (c : nat) (cs : list nat) :
  c ∈ cs → cs ≡ₚ c :: remove_first c cs.
Proof.
  induction cs as [|x cs IH]; [by intros ?%not_elem_of_nil|].
  intros Hin. cbn. case_decide as Hx; [by subst|].
  apply elem_of_cons in Hin as [->|Hin]; [done|].
  rewrite (IH Hin) at 1. apply Permutation_swap.
Qed.

(** X19.  Once [Serve] has returned, its result stays, and no connection
    is added to those being served: they can only finish. *)
Theorem Serve_after_return (tr : list event) (σ σ' : System) (r : option error) :
  result σ = Some r →
  run tr σ = Some σ' →
  result σ' = Some r ∧ serving σ' `sublist_of` serving σ.
Proof.
  intros Hr Hrun.
  apply (run_invariant
           (λ τ, result τ = Some r ∧ serving τ `sublist_of` serving σ) tr σ);
    [|done..].
  intros ev τ τ' [Hτ Hsub] Hstep. unfold step in Hstep.
  destruct (crashed τ); [done|].
  destruct ev; repeat case_match; simplify_eq; cbn; try done.
  split; [done|]. etrans; [apply remove_first_sublist | done].
Qed.

(** X20.  In every run of [Serve], the connections [Accept] returned are,
    counted with repetition, the connections whose [ServeConn] has returned,
    the connections being served, and the one the accept goroutine is
    waiting to hand over. *)
Theorem Serve_connections_accounted (s : Server) (ls : gmap nat Listener)
    (l : nat) (tr : list event) (σ : System) :
  run tr (Serve s ls l) = Some σ →
  accepted_conns tr ≡ₚ returned_conns tr ++ serving σ ++ waiting_conn (acc σ).
Proof.
  revert σ. induction tr as [|ev tr IH] using rev_ind; intros σ Hrun.
  { cbn in Hrun. by simplify_eq. }
  rewrite run_snoc in Hrun.
  destruct (run tr (Serve s ls l)) as [σ0|] eqn:Hσ0; [|done].
  specialize (IH σ0 eq_refl). cbn in Hrun.
  unfold accepted_conns, returned_conns in *. rewrite !omap_app.
  unfold step in Hrun. destruct (crashed σ0); [done|].
  destruct ev as [[c|e']| | | | |c r]; repeat case_match; simplify_eq; cbn;
    rewrite ?app_nil_r; rewrite IH.
  all: try match goal with H : acc _ = _ |- _ => rewrite H end; cbn;
    rewrite ?app_nil_r; try done.
  - by rewrite !app_assoc.
  - match goal with H : bool_decide _ = true |- _ =>
      apply bool_decide_eq_true in H; rewrite (remove_first_perm _ _ H) at 1 end.
    rewrite <-!app_assoc. cbn. by rewrite Permutation_middle.
Qed.



Lemma StaticCredentials_unknown_user_witness :
  Samples.users !! "bob" = None
  ∧ Valid (StaticCredentials Samples.users) "bob" "" = false.
Proof.
  split; [reflexivity|].
  apply (StaticCredentials_unknown_user Samples.users "bob" ""). reflexivity.
Defined.

Lemma StaticCredentials_one_password_witness :
  Valid (StaticCredentials Samples.users) "alice" "secret" = true
  ∧ "secret" = "secret".
Proof.
  split; [reflexivity|].
  apply (StaticCredentials_one_password Samples.users "alice"); reflexivity.
Defined.

Lemma ServeConn_error_context_witness :
  ∃ e : Error,
    (ServeConn Helpers.authenticate Helpers.NewRequest Helpers.sendReply
       Cases.refuse Samples.server (Samples.stream Cases.connect_request)).1 = Some e
    ∧ Conn e = Samples.client
    ∧ ∀ req, Req e = Some req →
        ∃ (w w' : Wire) (err : error),
          Cases.refuse Samples.server req w = (Some err, w')
          ∧ Err e = errString ("handle request: " ++ error_Error err).
Proof.
  eexists. split; [reflexivity|].
  apply (ServeConn_error_context Helpers.authenticate Helpers.NewRequest
           Helpers.sendReply Cases.refuse Samples.server
           (Samples.stream Cases.connect_request)).
  reflexivity.
Defined.

Lemma ServeConn_read_failure_witness :
  pending (wire (Samples.stream [])) = []
  ∧ let err := Samples.io_EOF in
    let e := wrapError (errWrap ("read version byte: " ++ error_Error err) err)
               Samples.client None in
    ServeConn Helpers.authenticate Helpers.NewRequest Helpers.sendReply
      Helpers.handle_nothing Samples.server (Samples.stream [])
    = (Some e, mkConnState Samples.client (wire (Samples.stream [])) 1)
    ∧ ∀ target : string, errors_Is (errConn e) target = errors_Is err target.
Proof.
  split; [reflexivity|].
  apply (ServeConn_read_failure Helpers.authenticate Helpers.NewRequest
           Helpers.sendReply Helpers.handle_nothing Samples.server
           (Samples.stream [])).
  reflexivity.
Defined.

Lemma ServeConn_auth_failure_witness :
  read_byte (wire (Samples.stream Cases.userpass_only))
    = (inl socks5Version, Cases.userpass_after_version)
  ∧ Helpers.authenticate Samples.server Cases.userpass_after_version
    = (None, Some Helpers.NoSupportedAuth, Cases.userpass_refused)
  ∧ let e := wrapError
               (errWrap ("authenticate: " ++ error_Error Helpers.NoSupportedAuth)
                  Helpers.NoSupportedAuth)
               Samples.client None in
    ServeConn Helpers.authenticate Helpers.NewRequest Helpers.sendReply
      Helpers.handle_nothing Samples.server (Samples.stream Cases.userpass_only)
    = (Some e, mkConnState Samples.client Cases.userpass_refused 1)
    ∧ ∀ target : string, errors_Is (errConn e) target
                         = errors_Is Helpers.NoSupportedAuth target.
Proof.
  split; [reflexivity|]. split; [reflexivity|].
  apply (ServeConn_auth_failure Helpers.authenticate Helpers.NewRequest
           Helpers.sendReply Helpers.handle_nothing Samples.server
           (Samples.stream Cases.userpass_only) Cases.userpass_after_version
           Cases.userpass_refused None Helpers.NoSupportedAuth); reflexivity.
Defined.

Lemma ServeConn_handler_failure_witness :
  let ctx := Some (mkAuthContext NoAuth ∅) in
  let err := errString "connect: connection refused" in
  let req := with_client Samples.client ctx Cases.connect_decoded in
  read_byte (wire (Samples.stream Cases.connect_request))
    = (inl socks5Version, Cases.connect_after_version)
  ∧ Helpers.authenticate Samples.server Cases.connect_after_version
    = (ctx, None, Cases.connect_after_greeting)
  ∧ Helpers.NewRequest Cases.connect_after_greeting
    = (inl Cases.connect_decoded, Cases.connect_after_request)
  ∧ Cases.refuse Samples.server req Cases.connect_after_request
    = (Some err, Cases.connect_after_request)
  ∧ let e := wrapError (errString ("handle request: " ++ error_Error err))
               Samples.client (Some req) in
    ServeConn Helpers.authenticate Helpers.NewRequest Helpers.sendReply
      Cases.refuse Samples.server (Samples.stream Cases.connect_request)
    = (Some e, mkConnState Samples.client Cases.connect_after_request 1)
    ∧ ∀ target : string, errors_Is (errConn e) target = false.
Proof.
  split; [reflexivity|]. split; [reflexivity|].
  split; [reflexivity|]. split; [reflexivity|].
  apply (ServeConn_handler_failure Helpers.authenticate Helpers.NewRequest
           Helpers.sendReply Cases.refuse Samples.server
           (Samples.stream Cases.connect_request) Cases.connect_after_version
           Cases.connect_after_greeting Cases.connect_after_request
           Cases.connect_after_request (Some (mkAuthContext NoAuth ∅))
           Cases.connect_decoded (errString "connect: connection refused"));
    reflexivity.
Defined.

Lemma New_idempotent_witness :
  New zero_Config = (Some Samples.server, None)
  ∧ New (config Samples.server) = (Some Samples.server, None).
Proof.
  split; [reflexivity|].
  apply (New_idempotent zero_Config Samples.server). reflexivity.
Defined.

Lemma Serve_nil_only_after_Shutdown_witness :
  ∃ σ : System,
    run [CallShutdown; RecvShutdown] (Serve Samples.server Samples.one_listener 0)
      = Some σ
    ∧ shutdown Samples.server = chan_open
    ∧ result σ = Some None
    ∧ CallShutdown ∈ [CallShutdown; RecvShutdown].
Proof.
  eexists. split; [reflexivity|]. split; [reflexivity|]. split; [reflexivity|].
  eapply (Serve_nil_only_after_Shutdown Samples.server Samples.one_listener 0
           [CallShutdown; RecvShutdown]); reflexivity.
Defined.

Lemma Serve_direct_keeps_listeners_witness :
  ∃ σ : System,
    listener Samples.server = None
    ∧ run Cases.accept_after_shutdown
        (Serve Samples.server Samples.one_listener 0) = Some σ
    ∧ listeners σ = Samples.one_listener
    ∧ listener_open σ = listener_open (Serve Samples.server Samples.one_listener 0).
Proof.
  eexists. split; [reflexivity|]. split; [reflexivity|].
  eapply (Serve_direct_keeps_listeners Samples.server Samples.one_listener 0
           Cases.accept_after_shutdown); reflexivity.
Defined.

Lemma Serve_after_return_witness :
  ∃ σ σ' : System,
    run [AcceptReturns (inl 1); RecvConn; CallShutdown; RecvShutdown;
         AcceptReturns (inr Samples.listener_closed)] Samples.listening = Some σ
    ∧ result σ = Some None
    ∧ run [ConnReturns 1 None] σ = Some σ'
    ∧ result σ' = Some None
    ∧ serving σ' `sublist_of` serving σ.
Proof.
  do 2 eexists. split; [reflexivity|]. split; [reflexivity|].
  split; [reflexivity|].
  eapply (Serve_after_return [ConnReturns 1 None]); reflexivity.
Defined.

Lemma Serve_connections_accounted_witness :
  ∃ σ : System,
    run Samples.busy_run (Serve Samples.logging_server Samples.one_listener 0)
      = Some σ
    ∧ accepted_conns Samples.busy_run
      ≡ₚ returned_conns Samples.busy_run ++ serving σ ++ waiting_conn (acc σ).
Proof.
  eexists. split; [reflexivity|].
  apply (Serve_connections_accounted Samples.logging_server
           Samples.one_listener 0 Samples.busy_run).
  reflexivity.
Defined.


(** ** New on the values a caller can pass *)

Lemma fill_registry_present (l : list Authenticator) (m : gmap byte Authenticator) :
  fill_registry m (Some <$> l) = Some (foldl register m l).
Proof. revert m. induction l as [|a l IH]; intros m; [done | apply IH]. Qed.

Lemma fill_registry_None (ms : list (option Authenticator))
    (m : gmap byte Authenticator) :
  fill_registry m ms = None ↔ None ∈ ms.
Proof.
  revert m. induction ms as [|[a|] ms IH]; intros m; cbn.
  - split; [done | by intros ?%not_elem_of_nil].
  - rewrite IH. split; [by right|]. by intros [?|?]%elem_of_cons.
  - split; [intros _; by left | done].
Qed.

(** [New] is [New_call] on the Configs whose authenticators are all
    present. *)
Lemma New_call_New (conf : Config) :
  New_call (Some (arg_of_Config conf)) = New_returned (New conf).1 (New conf).2.
Proof.
  rewrite New_eq. unfold New_call, arg_of_Config.
  cbn [arg_AuthMethods arg_AuthMethodsSort arg_Credentials arg_Resolver
       arg_Rules arg_Rewriter arg_BindIP arg_ErrorHandler arg_BaseContext
       arg_Dial fst snd].
  rewrite length_fmap.
  assert (∀ l : list Authenticator, omap id (Some <$> l) = l) as Homap.
  { induction l as [|a l IH]; [done|]. cbn. by rewrite IH. }
  destruct (decide (length (AuthMethods conf) = 0)) as [H0|H0].
  - destruct (Credentials conf), (Resolver conf), (Rules conf); reflexivity.
  - rewrite fill_registry_present, Homap.
    destruct (Resolver conf), (Rules conf); reflexivity.
Qed.

(** C10 (as amended).  On a pointer to a Config whose [AuthMethods] holds
    no nil element, the Config with every field unset included, [New]
    returns a Server and a nil error; whenever [New] returns, its Server is
    not nil and its error is nil; on a nil pointer, and on a Config with a
    nil element in [AuthMethods], [New] does not return but panics. *)
Theorem New_call_outcome (conf : option ConfigArg) :
  (∀ arg, conf = Some arg → None ∉ arg_AuthMethods arg →
     ∃ server : Server, New_call conf = New_returned (Some server) None)
  ∧ (∀ server err, New_call conf = New_returned server err →
       is_Some server ∧ err = None)
  ∧ (conf = None ∨ (∃ arg, conf = Some arg ∧ None ∈ arg_AuthMethods arg) →
     New_call conf = New_panicked nil_dereference).
Proof.
  split; [|split].
  - intros arg -> Hnone. unfold New_call.
    destruct (fill_registry ∅ _) as [reg|] eqn:Hfill; [by eexists|].
    apply fill_registry_None in Hfill. exfalso.
    case_decide; [|done].
    destruct (arg_Credentials arg);
      apply list_elem_of_singleton in Hfill; done.
  - intros server err. destruct conf as [arg|]; [|done]. unfold New_call.
    destruct (fill_registry ∅ _); [|done].
    intros [= <- <-]. by split; [eexists|].
  - intros [->|(arg & -> & Hin)]; [done|]. unfold New_call.
    case_decide as Hlen.
    { destruct (arg_AuthMethods arg); [by apply not_elem_of_nil in Hin | done]. }
    apply (fill_registry_None _ ∅) in Hin. by rewrite Hin.
Qed.

(** C10 as stated fails: on the Config whose one authentication method is
    nil, [New] panics in the loop that fills the registry. *)
Lemma New_nil_authenticator_counterexample :
  New_call (Some Cases.nil_authenticator) = New_panicked nil_dereference.
Proof. reflexivity. Qed.

(** The Config with every field unset, passed by pointer. *)
Example New_call_zero_Config :
  New_call (Some (arg_of_Config zero_Config))
  = New_returned (Some Samples.server) None.
Proof. reflexivity. Qed.

(** The error of an empty connection is io.EOF, and [errors.Is] finds it in
    what [ServeConn] returns. *)
Example read_failure_Is_EOF :
  (λ e, errors_Is (errConn e) "io.EOF")
    <$> (ServeConn Helpers.authenticate Helpers.NewRequest Helpers.sendReply
           Helpers.handle_nothing Samples.server (Samples.stream [])).1
  = Some true.
Proof. reflexivity. Qed.
